(** * A shallow embedding of [standalone_chessclock.py]

    The Python module drives an Arduino chess clock over a serial port.
    The class [ChessClock] keeps the two displayed times, the side to
    move, the instant of the last move and a game-over event; a timer
    thread ([time_keeper]) extrapolates the running time twice a second
    and writes one-byte commands and 32-character frames to the port.

    The embedding keeps the source's names.  Every method becomes a
    computation in a small state-and-exception monad over the record
    [ChessClock].  What lies outside the program is made explicit:
    - the serial port is the list of bytes written so far, and a write
      always succeeds;
    - [datetime.now()] is an argument of the method that reads it;
    - the event stream of the server is a list of events;
    - the timer thread and the event loop share the object; one call of a
      method and one pass through the timer's loop are the steps that
      interleave. *)

From Stdlib Require Import ZArith List Bool Lia.
From Stdlib Require Import Ascii String DecimalString.
From Stdlib.Strings Require Import Byte.
From Equations Require Import Equations.
Import ListNotations.

Local Open Scope string_scope.
Local Open Scope Z_scope.

(** ** Python's [datetime] and [timedelta]

    Both have microsecond resolution.  A [timedelta] is its signed number
    of microseconds, a [datetime] the number of microseconds since a fixed
    origin; the library's range limit (a billion days) is not modelled. *)
Module PyTime.

Definition timedelta := Z.
Definition datetime := Z.

Definition microseconds (n : Z) : timedelta := n.
Definition milliseconds (n : Z) : timedelta := n * 1000.
Definition seconds (n : Z) : timedelta := n * 1000000.
Definition minutes (n : Z) : timedelta := n * 60000000.

(** [a - b] on two datetimes. *)
Definition since (a b : datetime) : timedelta := a - b.
(** [t + d] on a datetime and a timedelta. *)
Definition after (t : datetime) (d : timedelta) : datetime := t + d.

(** The normalised fields: [0 <= seconds < 86400],
    [0 <= microseconds < 10^6], the sign lives in [days]. *)
Definition td_days (t : timedelta) : Z := t / 86400000000.
Definition td_seconds (t : timedelta) : Z := (t mod 86400000000) / 1000000.
Definition td_microseconds (t : timedelta) : Z := t mod 1000000.

(** [total_seconds() <= 0]: the float quotient by [10^6] of an integer
    number of microseconds is [<= 0] exactly when the integer is. *)
Definition total_seconds_le_0 (t : timedelta) : bool := t <=? 0.

(** ["%d" % n] *)
Definition fmt_d (n : Z) : string := NilZero.string_of_int (Z.to_int n).

(** ["%0wd" % n] for [n >= 0]. *)
Definition fmt_0d (w : nat) (n : Z) : string :=
  let s := fmt_d n in
  string_of_list_ascii (repeat "0"%char (w - String.length s)) ++ s.

(** [timedelta.__str__]. *)
Definition str (t : timedelta) : string :=
  let mm := td_seconds t / 60 in
  let ss := td_seconds t mod 60 in
  let hh := mm / 60 in
  let mm := mm mod 60 in
  let s := fmt_d hh ++ ":" ++ fmt_0d 2 mm ++ ":" ++ fmt_0d 2 ss in
  let s :=
    if td_days t =? 0 then s
    else fmt_d (td_days t) ++ " day"
         ++ (if Z.abs (td_days t) =? 1 then "" else "s") ++ ", " ++ s in
  if td_microseconds t =? 0 then s
  else s ++ "." ++ fmt_0d 6 (td_microseconds t).

End PyTime.
Import PyTime.

(** ** Python strings and bytes *)

(** [s[:k]] for an [int] [k]: a negative [k] counts from the end. *)
Definition slice_to (s : string) (k : Z) : string :=
  if k <? 0
  then substring 0 (Z.to_nat (Z.of_nat (String.length s) + k)) s
  else substring 0 (Z.to_nat k) s.

(** [s.encode("ascii")]: fails on a character above 127. *)
Fixpoint encode_ascii (s : string) : option (list byte) :=
  match s with
  | EmptyString => Some []
  | String a rest =>
      if (nat_of_ascii a <? 128)%nat
      then option_map (cons (byte_of_ascii a)) (encode_ascii rest)
      else None
  end.

(** The padding loop of [create_timestamp], for [width = self.lcd_length]:
    [while len(s) < width: s += " "]. *)
Equations? pad_loop (width : Z) (s : string) : string
  by wf (Z.to_nat (width - Z.of_nat (String.length s))) lt :=
  pad_loop width s with Z_lt_dec (Z.of_nat (String.length s)) width := {
    | left _ => pad_loop width (s ++ " ");
    | right _ => s }.
Proof.
  assert (String.length (s ++ " ") = S (String.length s)) as ->.
  { clear. induction s; simpl; congruence. }
  lia.
Qed.

(** One line of the frame: the text cut to [width] characters when
    longer, padded by the loop otherwise. *)
Definition lcd_line (width : Z) (text : string) : string :=
  if Z.of_nat (String.length text) >? width
  then slice_to text width
  else pad_loop width text.

(** ** The wire protocol

    One reserved byte per command, as the firmware reads them
    (the [case] labels quoted from [chess_clock.ino] in the source). *)
Module Wire.
Definition GAME_OVER : byte := "2"%byte.
Definition SHOW_TEXT : byte := "3"%byte.
Definition NEW_GAME : byte := "4"%byte.
Definition SPLASH : byte := "5"%byte.
Definition WHITE_WON : byte := "6"%byte.
Definition BLACK_WON : byte := "7"%byte.
Definition DRAWN : byte := "8"%byte.
Definition HELLO : byte := "@"%byte.
End Wire.

(** ** The object state *)

(** An instance attribute that a method may read before any method has
    assigned it: reading it then raises [AttributeError]. *)
Inductive attr (A : Type) : Type :=
| Unassigned
| Assigned (v : A).
Arguments Unassigned {A}.
Arguments Assigned {A} v.

(** The fields of [ChessClock] that the methods read or write.
    [chess_clock] is the serial port, kept as the bytes written to it,
    oldest first.  The two [Event]s are their flags.  [countdown] is the
    timer thread: [None] before one was created, [Some alive] after.
    The logger, the locks and the board client carry no state of the
    clock and are left out; [print] and the log go elsewhere than the
    serial port. *)
Record ChessClock : Type := mkChessClock {
  chess_clock : list byte;
  lcd_length : Z;
  displayed_btime : option timedelta;
  displayed_wtime : option timedelta;
  countdown : option bool;
  white_to_move : bool;
  game_over_event : bool;
  time_left_at_move : option timedelta;
  move_time : attr (option datetime)
}.

Definition set_chess_clock (v : list byte) (c : ChessClock) : ChessClock :=
  mkChessClock v (lcd_length c) (displayed_btime c) (displayed_wtime c)
    (countdown c) (white_to_move c) (game_over_event c)
    (time_left_at_move c) (move_time c).
Definition set_displayed_btime (v : option timedelta) (c : ChessClock) : ChessClock :=
  mkChessClock (chess_clock c) (lcd_length c) v (displayed_wtime c)
    (countdown c) (white_to_move c) (game_over_event c)
    (time_left_at_move c) (move_time c).
Definition set_displayed_wtime (v : option timedelta) (c : ChessClock) : ChessClock :=
  mkChessClock (chess_clock c) (lcd_length c) (displayed_btime c) v
    (countdown c) (white_to_move c) (game_over_event c)
    (time_left_at_move c) (move_time c).
Definition set_countdown (v : option bool) (c : ChessClock) : ChessClock :=
  mkChessClock (chess_clock c) (lcd_length c) (displayed_btime c)
    (displayed_wtime c) v (white_to_move c) (game_over_event c)
    (time_left_at_move c) (move_time c).
Definition set_white_to_move (v : bool) (c : ChessClock) : ChessClock :=
  mkChessClock (chess_clock c) (lcd_length c) (displayed_btime c)
    (displayed_wtime c) (countdown c) v (game_over_event c)
    (time_left_at_move c) (move_time c).
Definition set_game_over_event (v : bool) (c : ChessClock) : ChessClock :=
  mkChessClock (chess_clock c) (lcd_length c) (displayed_btime c)
    (displayed_wtime c) (countdown c) (white_to_move c) v
    (time_left_at_move c) (move_time c).
Definition set_time_left_at_move (v : option timedelta) (c : ChessClock) : ChessClock :=
  mkChessClock (chess_clock c) (lcd_length c) (displayed_btime c)
    (displayed_wtime c) (countdown c) (white_to_move c) (game_over_event c)
    v (move_time c).
Definition set_move_time (v : attr (option datetime)) (c : ChessClock) : ChessClock :=
  mkChessClock (chess_clock c) (lcd_length c) (displayed_btime c)
    (displayed_wtime c) (countdown c) (white_to_move c) (game_over_event c)
    (time_left_at_move c) v.

(** ** Exceptions and the method monad *)

Inductive exn : Type :=
| NicLinkGameOver (message : string)
| PyException (message : string)
| AttributeError (name : string)
| KeyError (key : string)
| UnicodeEncodeError.

(** A call either returns a value or raises; both leave a state. *)
Inductive result (A : Type) : Type :=
| Returns (a : A) (c : ChessClock)
| Raises (e : exn) (c : ChessClock).
Arguments Returns {A} a c.
Arguments Raises {A} e c.

Definition M (A : Type) : Type := ChessClock -> result A.

Definition ret {A} (a : A) : M A := fun c => Returns a c.
Definition raise {A} (e : exn) : M A := fun c => Raises e c.
Definition bind {A B} (m : M A) (k : A -> M B) : M B :=
  fun c => match m c with
           | Returns a c' => k a c'
           | Raises e c' => Raises e c'
           end.
Definition get {A} (f : ChessClock -> A) : M A := fun c => Returns (f c) c.
Definition modify (f : ChessClock -> ChessClock) : M unit :=
  fun c => Returns tt (f c).

Notation "x <- m ;; k" := (bind m (fun x => k))
  (at level 61, m at next level, right associativity).
Notation "m ;; k" := (bind m (fun _ => k))
  (at level 61, right associativity).

Definition state_of {A} (r : result A) : ChessClock :=
  match r with Returns _ c => c | Raises _ c => c end.

(** [self.chess_clock.write(bs)] *)
Definition write (bs : list byte) : M unit :=
  modify (fun c => set_chess_clock (chess_clock c ++ bs)%list c).

(** The bytes a call wrote, given the port before and after: *)
Fixpoint drop_prefix (old new : list byte) : list byte :=
  match old, new with
  | _ :: old', _ :: new' => drop_prefix old' new'
  | _, _ => new
  end.
Definition written {A} (m : M A) (c : ChessClock) : list byte :=
  drop_prefix (chess_clock c) (chess_clock (state_of (m c))).

(** ** The methods of [ChessClock] *)

(** [__init__]: the constructor refuses a missing logger or board client;
    otherwise it opens the port and sets every field below except
    [move_time], which it never assigns. *)
Definition __init__ (berserk_board_client logger : bool) : exn + ChessClock :=
  if negb logger then inl (PyException "no logger")
  else if negb berserk_board_client then inl (PyException "No board client")
  else inr {| chess_clock := [];
              lcd_length := 16;
              displayed_btime := None;
              displayed_wtime := None;
              countdown := None;
              white_to_move := false;
              game_over_event := false;
              time_left_at_move := None;
              move_time := Unassigned |}.

(** [move_made], run at the instant [now]. *)
Definition move_made (now : datetime) : M unit :=
  modify (set_move_time (Assigned (Some now))) ;;
  w <- get white_to_move ;;
  if w then
    modify (fun c => set_time_left_at_move (displayed_wtime c) c) ;;
    modify (set_white_to_move false)
  else
    modify (fun c => set_time_left_at_move (displayed_btime c) c) ;;
    modify (set_white_to_move true).

(** [create_timestamp]: stores both arguments, then formats them. *)
Definition create_timestamp (wtime btime : timedelta) : M string :=
  modify (set_displayed_wtime (Some wtime)) ;;
  modify (set_displayed_btime (Some btime)) ;;
  L <- get lcd_length ;;
  let white_time := lcd_line L ("W: " ++ str wtime) in
  let black_time := lcd_line L ("B: " ++ str btime) in
  ret (white_time ++ black_time).

(** [send_string]: the code byte goes out before the message is encoded. *)
Definition send_string (message : string) : M unit :=
  write [Wire.SHOW_TEXT] ;;
  match encode_ascii message with
  | Some bs => write bs
  | None => raise UnicodeEncodeError
  end.

Definition updateLCD (wtime btime : timedelta) : M unit :=
  timestamp <- create_timestamp wtime btime ;;
  send_string timestamp.

(** [game_over]: sets the event, writes the code byte when asked to, and
    formats the stored times for the log when both are there. *)
Definition game_over (display_message : bool) : M unit :=
  modify (set_game_over_event true) ;;
  (if display_message then write [Wire.GAME_OVER] else ret tt) ;;
  b <- get displayed_btime ;;
  w <- get displayed_wtime ;;
  match b, w with
  | Some b, Some w => _ <- create_timestamp w b ;; ret tt
  | _, _ => ret tt
  end.

(** The source defines the next four twice, with the same bodies; the
    later definitions are the ones the class keeps. *)
Definition show_splash : M unit := write [Wire.SPLASH].
Definition white_won : M unit := write [Wire.WHITE_WON] ;; game_over false.
Definition black_won : M unit := write [Wire.BLACK_WON] ;; game_over false.
Definition drawn_game : M unit := write [Wire.DRAWN] ;; game_over false.

(** An event of the game stream: its ["type"] and, when it has one, the
    clock part of its ["state"], in milliseconds. *)
Record clock_state : Type := { wtime : Z; btime : Z }.
Record game_event : Type := { ev_type : string; ev_state : option clock_state }.

(** The assignments of [initialize_clock] between its guard and its own
    call of [move_made] (the part under "reset clock var's"). *)
Definition initialize_clock_reset (init_event : game_event) : M unit :=
  modify (set_move_time (Assigned None)) ;;
  modify (set_white_to_move true) ;;
  match ev_state init_event with
  | None => raise (KeyError "state")
  | Some st =>
      modify (set_displayed_wtime (Some (milliseconds (wtime st)))) ;;
      modify (set_displayed_btime (Some (milliseconds (btime st)))) ;;
      modify (set_time_left_at_move None)
  end.

(** [initialize_clock], run at the instant [now]: guard, reset, the
    seeding [move_made], and the start of the timer thread. *)
Definition initialize_clock (init_event : game_event) (now : datetime) : M unit :=
  t <- get countdown ;;
  match t with
  | Some true => raise (PyException "ChessClock.countdown() is still alive")
  | _ =>
      initialize_clock_reset init_event ;;
      move_made now ;;
      modify (set_countdown (Some true))
  end.

(** The loop of [start_new_game] over the events of the stream, each
    paired with the instant at which it is handled: what the thread of
    the loop does.  The timer thread that the first event starts makes
    its passes between the events; [run_schedule] below has both. *)
Fixpoint stream_events (clock_not_initialized : bool)
    (stream : list (game_event * datetime)) : M unit :=
  match stream with
  | [] => ret tt
  | (event, now) :: rest =>
      (if clock_not_initialized then initialize_clock event now else ret tt) ;;
      (if String.eqb (ev_type event) "gameState"
       then modify (set_move_time (Assigned (Some now))) ;; move_made now
       else ret tt) ;;
      stream_events false rest
  end.

Definition start_new_game (stream : list (game_event * datetime)) : M unit :=
  write [Wire.NEW_GAME] ;;
  modify (set_white_to_move true) ;;
  stream_events true stream.

(** [did_flag] *)
Definition did_flag (player_time : timedelta) : bool :=
  if total_seconds_le_0 player_time then true else false.

(** The message of the exception that ends the timer on a finished game. *)
Definition exiting_message : string := "time_keeper(...) exiting. 
chess_clock.game_over_event.is_set()".

(** How one pass through the body of a [while] loop ends when it does
    not raise.  [time_keeper] has no [break] and no [return]. *)
Inductive control : Type := Continue | Break.

(** One pass through the body of [time_keeper]'s loop; [now] is the
    value of [datetime.now()] in that pass.  [sleep] changes nothing. *)
Definition time_keeper_body (now : datetime) : M control :=
  over <- get game_over_event ;;
  if over then
    raise (NicLinkGameOver exiting_message)
  else
  mt <- get move_time ;;
  match mt with
  | Unassigned => raise (AttributeError "move_time")
  | Assigned None => ret Continue
  | Assigned (Some move_time) =>
  tl <- get time_left_at_move ;;
  match tl with
  | None => ret Continue
  | Some time_left_at_move =>
  bt <- get displayed_btime ;;
  match bt with
  | None => ret Continue
  | Some displayed_btime =>
  wt <- get displayed_wtime ;;
  match wt with
  | None => ret Continue
  | Some _ =>
      w <- get white_to_move ;;
      if w then
        let new_wtime := time_left_at_move - since now move_time in
        if did_flag new_wtime then
          white_won ;;
          raise (NicLinkGameOver "white flaged")
        else
          updateLCD new_wtime displayed_btime ;;
          ret Continue
      else
        let new_btime := time_left_at_move - since now move_time in
        if did_flag displayed_btime then
          black_won ;;
          raise (NicLinkGameOver "black flaged")
        else
          updateLCD displayed_btime new_btime ;;
          ret Continue
  end end end end.

(** [time_keeper]: the loop, run for the passes whose instants are given.
    It returns [Continue] when those are used up and the loop goes on. *)
Fixpoint time_keeper (nows : list datetime) : M control :=
  match nows with
  | [] => ret Continue
  | now :: rest =>
      k <- time_keeper_body now ;;
      match k with
      | Continue => time_keeper rest
      | Break => ret Break
      end
  end.

(** Every method of the class, with its arguments, and its call. *)
Inductive method : Type :=
| m_move_made (now : datetime)
| m_updateLCD (wtime btime : timedelta)
| m_game_over (display_message : bool)
| m_send_string (message : string)
| m_start_new_game (stream : list (game_event * datetime))
| m_show_splash
| m_white_won
| m_black_won
| m_drawn_game
| m_initialize_clock (init_event : game_event) (now : datetime)
| m_create_timestamp (wtime btime : timedelta)
| m_time_keeper (nows : list datetime).

Definition call (m : method) : M unit :=
  match m with
  | m_move_made now => move_made now
  | m_updateLCD w b => updateLCD w b
  | m_game_over d => game_over d
  | m_send_string s => send_string s
  | m_start_new_game st => start_new_game st
  | m_show_splash => show_splash
  | m_white_won => white_won
  | m_black_won => black_won
  | m_drawn_game => drawn_game
  | m_initialize_clock ev now => initialize_clock ev now
  | m_create_timestamp w b => _ <- create_timestamp w b ;; ret tt
  | m_time_keeper nows => _ <- time_keeper nows ;; ret tt
  end.

(** ** The display line in the specification's words

    "<side>: <duration>", cut to the width when longer, padded on the
    right with spaces when shorter. *)
Definition spaces (n : nat) : string := string_of_list_ascii (repeat " "%char n).

Definition spec_line (width : nat) (text : string) : string :=
  if (width <? String.length text)%nat
  then substring 0 width text
  else text ++ spaces (width - String.length text).

(** A string that [encode("ascii")] accepts, giving one byte per
    character. *)
Definition encodable (s : string) : Prop :=
  encode_ascii s = Some (list_byte_of_string s).

(** A computation that only ever appends to the serial port. *)
Definition port_extends {A} (m : M A) : Prop :=
  forall c, exists bs, chess_clock (state_of (m c)) = (chess_clock c ++ bs)%list.

(** A computation that leaves the serial port as it was. *)
Definition port_fixed {A} (m : M A) : Prop :=
  forall c, chess_clock (state_of (m c)) = chess_clock c.

(** A computation that leaves the configured width as it was. *)
Definition width_fixed {A} (m : M A) : Prop :=
  forall c, lcd_length (state_of (m c)) = lcd_length c.

(** The states a clock goes through: built by the constructor, changed by
    calls of the methods, and by the timer thread ending. *)
Inductive reachable : ChessClock -> Prop :=
| reach_init c : __init__ true true = inr c -> reachable c
| reach_call m c : reachable c -> reachable (state_of (call m c))
| reach_thread_end c : reachable c -> reachable (set_countdown (Some false) c).

(** The frame for a width and two durations: white line, black line. *)
Definition frame_of (width : Z) (wtime btime : timedelta) : string :=
  lcd_line width ("W: " ++ str wtime) ++ lcd_line width ("B: " ++ str btime).

(** The state [create_timestamp wtime btime] leaves. *)
Definition stored (wtime btime : timedelta) (c : ChessClock) : ChessClock :=
  set_displayed_btime (Some btime) (set_displayed_wtime (Some wtime) c).

(** The state [updateLCD wtime btime] leaves. *)
Definition shown (wtime btime : timedelta) (c : ChessClock) : ChessClock :=
  set_chess_clock
    (chess_clock c ++ Wire.SHOW_TEXT
       :: list_byte_of_string (frame_of (lcd_length c) wtime btime))%list
    (stored wtime btime c).

(** The code bytes for which the class has a sending method. *)
Definition sent_codes : list byte :=
  [Wire.GAME_OVER; Wire.SHOW_TEXT; Wire.NEW_GAME; Wire.SPLASH;
   Wire.WHITE_WON; Wire.BLACK_WON; Wire.DRAWN].

(** ** States and events used in the examples *)

(** The clock as the constructor leaves it. *)
Definition new_clock : ChessClock :=
  {| chess_clock := []; lcd_length := 16;
     displayed_btime := None; displayed_wtime := None;
     countdown := None; white_to_move := false; game_over_event := false;
     time_left_at_move := None; move_time := Unassigned |}.

(** The first event of a game stream, with the two clocks in milliseconds. *)
Definition game_full (w b : Z) : game_event :=
  {| ev_type := "gameFull"; ev_state := Some {| wtime := w; btime := b |} |}.

(** An arbitrary origin for the instants of the examples. *)
Definition t0 : datetime := 1000000000.

(** The clock after [initialize_clock] on a new clock, at [t0], with the
    two clocks of the first event in milliseconds. *)
Definition seeded (w b : Z) : ChessClock :=
  state_of (initialize_clock (game_full w b) t0 new_clock).

(** The clock after a game of two seconds against sixty that ended on a
    flag: two passes of the timer, three and three and a half seconds
    after the start; the timer thread has died of its exception. *)
Definition game_ended : ChessClock :=
  set_countdown (Some false)
    (state_of (time_keeper [after t0 (seconds 3); after t0 (milliseconds 3500)]
                 (seeded 2000 60000))).

(** ** The functions of the module outside the class *)

(** The ["game"] part of a [gameStart] event of the server; each key may
    be missing. *)
Record game_data : Type := {
  gd_speed : option string;
  gd_id : option string;
  gd_hasMoved : option bool
}.

(** An event of the stream of incoming events. *)
Record incoming_event : Type := {
  in_type : string;
  in_game : option game_data
}.

(** [handle_game_start].  The board client is the function that gives the
    stream of a game, each event with the instant at which it is handled;
    [start_new_game] asks it for the stream of the game's id. *)
Definition handle_game_start
    (stream_game_state : string -> list (game_event * datetime))
    (event : incoming_event) : M unit :=
  match in_game event with
  | None => raise (KeyError "game")
  | Some game_data =>
      match gd_speed game_data with
      | None => raise (KeyError "speed")
      | Some speed =>
          if String.eqb speed "correspondence" then
            match gd_id game_data with
            | None => raise (KeyError "id")
            | Some _ => ret tt
            end
          else
            match gd_hasMoved game_data with
            | None => raise (KeyError "hasMoved")
            | Some _ =>
                match gd_id game_data with
                | None => raise (KeyError "id")
                | Some game_id => start_new_game (stream_game_state game_id)
                end
            end
      end
  end.

(** ** Notions used to state further properties *)

(** A computation under which a property of the state, once true, stays
    true. *)
Definition preserves {A} (P : ChessClock -> Prop) (m : M A) : Prop :=
  forall c, P c -> P (state_of (m c)).



(** The game-over event is set. *)
Definition game_is_over (c : ChessClock) : Prop := game_over_event c = true.

(** Both displayed times are stored. *)
Definition both_shown (c : ChessClock) : Prop :=
  displayed_wtime c <> None /\ displayed_btime c <> None.

(** The values of the last move, the thread and the width are the given
    ones. *)
Definition move_kept (L : Z) (cd : option bool) (wm : bool)
    (tl : option timedelta) (mt : attr (option datetime))
    (c : ChessClock) : Prop :=
  lcd_length c = L /\ countdown c = cd /\ white_to_move c = wm
  /\ time_left_at_move c = tl /\ move_time c = mt.


(** What the firmware can read back: frames, each the code of a text and
    a payload of a fixed length, and after them at most one code of a
    win. *)
Inductive timer_output (payload : nat) : list byte -> Prop :=
| output_end : timer_output payload []
| output_white_won : timer_output payload [Wire.WHITE_WON]
| output_black_won : timer_output payload [Wire.BLACK_WON]
| output_frame bs rest :
    List.length bs = payload ->
    timer_output payload rest ->
    timer_output payload (Wire.SHOW_TEXT :: bs ++ rest).

(** A character that [encode("ascii")] refuses. *)
Definition non_ascii (a : ascii) : Prop := (128 <= nat_of_ascii a)%nat.

(** The durations that [timedelta] can hold: from -999999999 days to one
    microsecond less than a billion days.  Beyond them its constructor
    raises [OverflowError]; [milliseconds] is the constructor on the
    snapshots within them. *)
Definition timedelta_in_range (t : timedelta) : Prop :=
  -86399999913600000000 <= t <= 86399999999999999999.

(** A snapshot of the server that [initialize_clock] can store. *)
Definition snapshot_in_range (st : clock_state) : Prop :=
  timedelta_in_range (milliseconds (wtime st))
  /\ timedelta_in_range (milliseconds (btime st)).

(** The state after further moves, made at the given instants. *)
Definition after_moves (moves : list datetime) (c : ChessClock) : ChessClock :=
  fold_left (fun c' now => state_of (move_made now c')) moves c.

(** ** A game with its timer running

    [initialize_clock] starts the timer thread, which from then on makes
    its passes while [start_new_game] goes on reading the stream.  What
    happens next is either: the loop of [start_new_game] handles the next
    event, or the timer makes a pass. *)
Inductive step : Type :=
| Event (event : game_event) (now : datetime)
| Pass (now : datetime).

(** A pass of the timer thread, if there is a live one.  An exception
    ends the thread and goes no further. *)
Definition timer_thread_pass (now : datetime) : M unit :=
  fun c =>
    match countdown c with
    | Some true =>
        match time_keeper_body now c with
        | Returns _ c' => Returns tt c'
        | Raises _ c' => Returns tt (set_countdown (Some false) c')
        end
    | _ => Returns tt c
    end.

(** The loop of [start_new_game] with the passes of the timer between
    its events. *)
Fixpoint run_schedule (clock_not_initialized : bool)
    (schedule : list step) : M unit :=
  match schedule with
  | [] => ret tt
  | Event event now :: rest =>
      stream_events clock_not_initialized [(event, now)] ;;
      run_schedule false rest
  | Pass now :: rest =>
      timer_thread_pass now ;;
      run_schedule clock_not_initialized rest
  end.

Definition start_new_game_with_timer (schedule : list step) : M unit :=
  write [Wire.NEW_GAME] ;;
  modify (set_white_to_move true) ;;
  run_schedule true schedule.

(** The number of events of type ["gameState"] in a schedule. *)
Fixpoint moves_of (schedule : list step) : nat :=
  match schedule with
  | [] => 0
  | Event event _ :: rest =>
      if String.eqb (ev_type event) "gameState"
      then S (moves_of rest) else moves_of rest
  | Pass _ :: rest => moves_of rest
  end.

(** The instant of the last event of type ["gameState"] in a schedule, or
    the given one when there is none. *)
Fixpoint last_move_of (schedule : list step) (default : datetime) : datetime :=
  match schedule with
  | [] => default
  | Event event now :: rest =>
      last_move_of rest
        (if String.eqb (ev_type event) "gameState" then now else default)
  | Pass _ :: rest => last_move_of rest default
  end.

(** The state while a game runs with its timer: the instant of the last
    move is known, both times are stored, the side to move and the
    instant are the given ones, and the timer is alive, or dead with the
    game over. *)
Definition game_running (wm : bool) (d : datetime) (c : ChessClock) : Prop :=
  white_to_move c = wm
  /\ move_time c = Assigned (Some d)
  /\ both_shown c
  /\ (countdown c = Some true
      \/ (countdown c = Some false /\ game_over_event c = true)).

(** * Properties *)

(** ** Python's [str] of a [timedelta], on examples *)

Example str_one_minute : str (minutes 1) = "0:01:00".
Proof. vm_compute. reflexivity. Qed.

Example str_negative : str (seconds (-1)) = "-1 day, 23:59:59".
Proof. vm_compute. reflexivity. Qed.

Example str_fraction : str (microseconds 1500000) = "0:00:01.500000".
Proof. vm_compute. reflexivity. Qed.

Example str_days : str (seconds (2 * 86400 + 4 * 3600 + 60)) = "2 days, 4:01:00".
Proof. vm_compute. reflexivity. Qed.

Example str_minus_one_day : str (seconds (-86400)) = "-1 day, 0:00:00".
Proof. vm_compute. reflexivity. Qed.

Example str_day_fraction :
  str (seconds 86400 + microseconds 5) = "1 day, 0:00:00.000005".
Proof. vm_compute. reflexivity. Qed.

Example slice_to_negative : slice_to "abcdef" (-2) = "abcd".
Proof. reflexivity. Qed.

Example slice_to_too_negative : slice_to "ab" (-5) = "".
Proof. reflexivity. Qed.

Example did_flag_at_zero :
  did_flag (microseconds 1) = false /\ did_flag 0 = true
  /\ did_flag (microseconds (-1)) = true.
Proof. repeat split. Qed.

Example lcd_line_padded :
  lcd_line 16 ("W: " ++ str (minutes 1)) = "W: 0:01:00      ".
Proof. vm_compute. reflexivity. Qed.

Example lcd_line_cut :
  lcd_line 16 ("B: " ++ str (seconds (-1))) = "B: -1 day, 23:59".
Proof. vm_compute. reflexivity. Qed.

(** A negative width, which the class never has, would cut from the end. *)
Example lcd_line_negative_width : lcd_line (-2) "W: 0:01:00" = "W: 0:01:".
Proof. vm_compute. reflexivity. Qed.

(** ** Strings *)

Section Strings.

Lemma length_append (s1 s2 : string) :
  String.length (s1 ++ s2) = (String.length s1 + String.length s2)%nat.
Proof. induction s1; simpl; congruence. Qed.

Lemma length_substring_0 (n : nat) (s : string) :
  (n <= String.length s)%nat -> String.length (substring 0 n s) = n.
Proof.
  revert n. induction s as [|a s IH]; intros [|n] H; simpl in *; try lia.
  rewrite IH; lia.
Qed.

Lemma length_spaces (n : nat) : String.length (spaces n) = n.
Proof. unfold spaces. induction n; simpl; congruence. Qed.

Lemma append_spaces_S (s : string) (n : nat) :
  (s ++ " ") ++ spaces n = s ++ spaces (S n).
Proof. induction s; simpl; [reflexivity | congruence]. Qed.

Lemma append_empty_r (s : string) : s ++ "" = s.
Proof. induction s; simpl; congruence. Qed.

(** The loop appends exactly the missing number of spaces. *)
Lemma pad_loop_spaces (width : Z) (s : string) :
  pad_loop width s = s ++ spaces (Z.to_nat (width - Z.of_nat (String.length s))).
Proof.
  funelim (pad_loop width s).
  - rewrite H, length_append. simpl String.length.
    replace (Z.to_nat (width - Z.of_nat (String.length s)))
      with (S (Z.to_nat (width - Z.of_nat (String.length s + 1)))) by lia.
    apply append_spaces_S.
  - replace (Z.to_nat (width - Z.of_nat (String.length s))) with 0%nat by lia.
    symmetry. apply append_empty_r.
Qed.

(** For a width that is not negative the source's line is the
    specification's. *)
Lemma lcd_line_spec (width : Z) (text : string) :
  0 <= width -> lcd_line width text = spec_line (Z.to_nat width) text.
Proof.
  intros Hw. unfold lcd_line, spec_line, slice_to.
  destruct (Z.gtb_spec (Z.of_nat (String.length text)) width) as [Hgt|Hle].
  - destruct (Nat.ltb_spec (Z.to_nat width) (String.length text)); [|lia].
    destruct (Z.ltb_spec width 0); [lia | reflexivity].
  - destruct (Nat.ltb_spec (Z.to_nat width) (String.length text)); [lia|].
    rewrite pad_loop_spaces. f_equal. f_equal. lia.
Qed.

Lemma length_spec_line (width : nat) (text : string) :
  String.length (spec_line width text) = width.
Proof.
  unfold spec_line.
  destruct (Nat.ltb_spec width (String.length text)).
  - apply length_substring_0. lia.
  - rewrite length_append, length_spaces. lia.
Qed.

End Strings.

(** ** Encoding to bytes *)

Section Encoding.

Lemma encodable_empty : encodable "".
Proof. reflexivity. Qed.

Lemma encodable_cons (a : ascii) (s : string) :
  (nat_of_ascii a < 128)%nat -> encodable s -> encodable (String a s).
Proof.
  unfold encodable. intros Ha Hs. cbn [encode_ascii].
  destruct (Nat.ltb_spec (nat_of_ascii a) 128); [|lia].
  rewrite Hs. reflexivity.
Qed.

Lemma encodable_inv (a : ascii) (s : string) :
  encodable (String a s) -> (nat_of_ascii a < 128)%nat /\ encodable s.
Proof.
  unfold encodable. cbn [encode_ascii].
  destruct (Nat.ltb_spec (nat_of_ascii a) 128); [|discriminate].
  destruct (encode_ascii s) as [bs|]; [|discriminate].
  intros [= E]. split; [assumption|]. now rewrite E.
Qed.

Lemma encodable_append (s1 s2 : string) :
  encodable s1 -> encodable s2 -> encodable (s1 ++ s2).
Proof.
  induction s1 as [|a s1 IH]; intros H1 H2; [exact H2|].
  apply encodable_inv in H1 as [Ha H1].
  apply (encodable_cons a (s1 ++ s2) Ha). now apply IH.
Qed.

Lemma encodable_substring_0 (n : nat) (s : string) :
  encodable s -> encodable (substring 0 n s).
Proof.
  revert n. induction s as [|a s IH]; intros [|n] H;
    try exact encodable_empty.
  apply encodable_inv in H as [Ha H].
  apply (encodable_cons a _ Ha). now apply IH.
Qed.

Lemma encodable_spaces (n : nat) : encodable (spaces n).
Proof.
  induction n as [|n IH]; [exact encodable_empty|].
  apply (encodable_cons " "%char (spaces n)); [vm_compute; lia | exact IH].
Qed.

Lemma encodable_zeros (n : nat) :
  encodable (string_of_list_ascii (repeat "0"%char n)).
Proof.
  induction n as [|n IH]; [exact encodable_empty|].
  apply (encodable_cons "0"%char); [vm_compute; lia | exact IH].
Qed.

Lemma encodable_uint (d : Decimal.uint) : encodable (NilEmpty.string_of_uint d).
Proof.
  induction d; cbn [NilEmpty.string_of_uint];
    try exact encodable_empty;
    (apply encodable_cons; [vm_compute; lia | assumption]).
Qed.

Lemma encodable_fmt_d (n : Z) : encodable (fmt_d n).
Proof.
  unfold fmt_d, NilZero.string_of_int, NilZero.string_of_uint.
  destruct (Z.to_int n) as [d|d].
  - destruct d; try reflexivity; apply (encodable_uint (_ d)).
  - apply encodable_cons; [vm_compute; lia|].
    destruct d; try reflexivity; apply (encodable_uint (_ d)).
Qed.

Lemma encodable_fmt_0d (w : nat) (n : Z) : encodable (fmt_0d w n).
Proof.
  unfold fmt_0d. apply encodable_append;
    [apply encodable_zeros | apply encodable_fmt_d].
Qed.

Create HintDb encodable.
Hint Resolve encodable_append encodable_fmt_d encodable_fmt_0d
  encodable_zeros encodable_spaces encodable_substring_0 : encodable.

(** Everything [str] prints is ASCII. *)
Lemma encodable_str (t : timedelta) : encodable (str t).
Proof.
  unfold str.
  assert (Hs : encodable (fmt_d (td_seconds t / 60 / 60) ++ ":"
                          ++ fmt_0d 2 ((td_seconds t / 60) mod 60) ++ ":"
                          ++ fmt_0d 2 (td_seconds t mod 60))).
  { repeat apply encodable_append; auto with encodable; reflexivity. }
  assert (Hd : encodable
            (if td_days t =? 0
             then fmt_d (td_seconds t / 60 / 60) ++ ":"
                  ++ fmt_0d 2 ((td_seconds t / 60) mod 60) ++ ":"
                  ++ fmt_0d 2 (td_seconds t mod 60)
             else fmt_d (td_days t) ++ " day"
                  ++ (if Z.abs (td_days t) =? 1 then "" else "s") ++ ", "
                  ++ fmt_d (td_seconds t / 60 / 60) ++ ":"
                  ++ fmt_0d 2 ((td_seconds t / 60) mod 60) ++ ":"
                  ++ fmt_0d 2 (td_seconds t mod 60))).
  { destruct (td_days t =? 0); [exact Hs|].
    repeat apply encodable_append; auto with encodable; try reflexivity.
    destruct (Z.abs (td_days t) =? 1); reflexivity. }
  destruct (td_microseconds t =? 0); [exact Hd|].
  repeat apply encodable_append; auto with encodable; reflexivity.
Qed.

Lemma encodable_lcd_line (width : Z) (text : string) :
  encodable text -> encodable (lcd_line width text).
Proof.
  intros H. unfold lcd_line, slice_to.
  destruct (_ >? _).
  - destruct (width <? 0); now apply encodable_substring_0.
  - rewrite pad_loop_spaces. auto with encodable.
Qed.

Lemma length_list_byte_of_string (s : string) :
  List.length (list_byte_of_string s) = String.length s.
Proof.
  unfold list_byte_of_string. rewrite length_map.
  induction s; simpl; congruence.
Qed.

End Encoding.

(** ** The serial port only grows *)

Section Port.

Lemma drop_prefix_app (old bs : list byte) : drop_prefix old (old ++ bs) = bs.
Proof.
  induction old as [|x old IH]; [destruct bs; reflexivity | exact IH].
Qed.

Lemma written_eq {A} (m : M A) (c : ChessClock) (bs : list byte) :
  chess_clock (state_of (m c)) = (chess_clock c ++ bs)%list ->
  written m c = bs.
Proof. unfold written. intros ->. apply drop_prefix_app. Qed.

Lemma port_extends_written {A} (m : M A) (c : ChessClock) :
  port_extends m ->
  chess_clock (state_of (m c)) = (chess_clock c ++ written m c)%list.
Proof.
  intros H. destruct (H c) as [bs E]. now rewrite (written_eq m c bs E).
Qed.

Lemma port_extends_ret {A} (a : A) : port_extends (ret a).
Proof. intros c. exists []. cbn. now rewrite app_nil_r. Qed.

Lemma port_extends_raise {A} (e : exn) : port_extends (@raise A e).
Proof. intros c. exists []. cbn. now rewrite app_nil_r. Qed.

Lemma port_extends_get {A} (f : ChessClock -> A) : port_extends (get f).
Proof. intros c. exists []. cbn. now rewrite app_nil_r. Qed.

Lemma port_extends_modify (f : ChessClock -> ChessClock) :
  (forall c, chess_clock (f c) = chess_clock c) -> port_extends (modify f).
Proof. intros H c. exists []. cbn. now rewrite H, app_nil_r. Qed.

Lemma port_extends_write (bs : list byte) : port_extends (write bs).
Proof. intros c. exists bs. reflexivity. Qed.

Lemma port_extends_bind {A B} (m : M A) (k : A -> M B) :
  port_extends m -> (forall a, port_extends (k a)) -> port_extends (bind m k).
Proof.
  intros Hm Hk c. destruct (Hm c) as [bs E]. unfold bind.
  destruct (m c) as [a c'|e c']; cbn in E.
  - destruct (Hk a c') as [bs' E']. exists (bs ++ bs')%list.
    now rewrite E', E, app_assoc.
  - now exists bs.
Qed.

(** What a sequence writes: the first part's bytes, then the second
    part's if the first returned. *)
Lemma written_bind {A B} (m : M A) (k : A -> M B) (c : ChessClock) :
  port_extends m -> (forall a, port_extends (k a)) ->
  written (bind m k) c =
  (written m c ++ match m c with
                  | Returns a c' => written (k a) c'
                  | Raises _ _ => []
                  end)%list.
Proof.
  intros Hm Hk. apply written_eq.
  pose proof (port_extends_written m c Hm) as E. unfold bind.
  destruct (m c) as [a c'|e c']; cbn in E |- *.
  - rewrite (port_extends_written (k a) c' (Hk a)), E. now rewrite app_assoc.
  - now rewrite app_nil_r.
Qed.

End Port.

Create HintDb port.
#[local] Hint Resolve port_extends_ret port_extends_raise port_extends_get
  port_extends_write port_extends_bind : port.
#[local] Hint Extern 1 (port_extends (modify _)) =>
  apply port_extends_modify; intros; reflexivity : port.

(** Splits a method body along its binds, conditionals and matches. *)
Ltac port_step :=
  match goal with
  | |- port_extends (bind _ _) => apply port_extends_bind; [|intros]
  | |- port_extends (if ?b then _ else _) => destruct b
  | |- port_extends (match ?x with _ => _ end) => destruct x
  | |- _ => solve [auto with port]
  end.
Ltac port_solve := repeat port_step.

Section MethodsExtendPort.

Lemma port_extends_move_made now : port_extends (move_made now).
Proof. unfold move_made. port_solve. Qed.

Lemma port_extends_create_timestamp w b : port_extends (create_timestamp w b).
Proof. unfold create_timestamp. port_solve. Qed.

Lemma port_extends_send_string s : port_extends (send_string s).
Proof. unfold send_string. port_solve. Qed.

Lemma port_extends_updateLCD w b : port_extends (updateLCD w b).
Proof.
  unfold updateLCD. apply port_extends_bind;
    [apply port_extends_create_timestamp | intros; apply port_extends_send_string].
Qed.

Lemma port_extends_game_over d : port_extends (game_over d).
Proof.
  unfold game_over. pose proof port_extends_create_timestamp. port_solve.
Qed.

Lemma port_extends_show_splash : port_extends show_splash.
Proof. unfold show_splash. port_solve. Qed.

Lemma port_extends_white_won : port_extends white_won.
Proof. unfold white_won. pose proof port_extends_game_over. port_solve. Qed.

Lemma port_extends_black_won : port_extends black_won.
Proof. unfold black_won. pose proof port_extends_game_over. port_solve. Qed.

Lemma port_extends_drawn_game : port_extends drawn_game.
Proof. unfold drawn_game. pose proof port_extends_game_over. port_solve. Qed.

Lemma port_extends_initialize_clock ev now : port_extends (initialize_clock ev now).
Proof.
  unfold initialize_clock, initialize_clock_reset.
  pose proof port_extends_move_made. port_solve.
Qed.

Lemma port_extends_stream_events b stream : port_extends (stream_events b stream).
Proof.
  revert b. induction stream as [|[ev now] rest IH]; intros b; cbn [stream_events].
  - auto with port.
  - pose proof port_extends_initialize_clock.
    pose proof port_extends_move_made. port_solve.
Qed.

Lemma port_extends_start_new_game stream : port_extends (start_new_game stream).
Proof.
  unfold start_new_game. pose proof port_extends_stream_events. port_solve.
Qed.

Lemma port_extends_time_keeper_body now : port_extends (time_keeper_body now).
Proof.
  unfold time_keeper_body.
  pose proof port_extends_white_won. pose proof port_extends_black_won.
  pose proof port_extends_updateLCD. port_solve.
Qed.

Lemma port_extends_time_keeper nows : port_extends (time_keeper nows).
Proof.
  induction nows as [|now rest IH]; cbn [time_keeper].
  - auto with port.
  - pose proof port_extends_time_keeper_body. port_solve.
Qed.

End MethodsExtendPort.

(** ** What each method does *)

Section Methods.

Lemma create_timestamp_returns (wtime btime : timedelta) (c : ChessClock) :
  create_timestamp wtime btime c
  = Returns (frame_of (lcd_length c) wtime btime) (stored wtime btime c).
Proof. reflexivity. Qed.

Lemma encodable_frame_of (width : Z) (wtime btime : timedelta) :
  encodable (frame_of width wtime btime).
Proof.
  unfold frame_of.
  apply encodable_append; apply encodable_lcd_line;
    (apply encodable_append; [reflexivity | apply encodable_str]).
Qed.

Lemma send_string_returns (message : string) (c : ChessClock) :
  encodable message ->
  send_string message c
  = Returns tt (set_chess_clock
                  (chess_clock c ++ Wire.SHOW_TEXT :: list_byte_of_string message)%list c).
Proof.
  intros H. unfold send_string, bind, write, modify. rewrite H. cbn.
  now rewrite <- app_assoc.
Qed.

Lemma send_string_refused (message : string) (c : ChessClock) :
  encode_ascii message = None ->
  send_string message c
  = Raises UnicodeEncodeError
      (set_chess_clock (chess_clock c ++ [Wire.SHOW_TEXT])%list c).
Proof. intros H. unfold send_string, bind, write, modify. now rewrite H. Qed.

Lemma updateLCD_returns (wtime btime : timedelta) (c : ChessClock) :
  updateLCD wtime btime c = Returns tt (shown wtime btime c).
Proof.
  unfold updateLCD, bind. rewrite create_timestamp_returns.
  rewrite send_string_returns by apply encodable_frame_of. reflexivity.
Qed.

(** [game_over] re-stores the two displayed times it reads, so apart
    from the event and the optional byte it changes nothing. *)
Lemma game_over_returns (display_message : bool) (c : ChessClock) :
  game_over display_message c
  = Returns tt
      (set_game_over_event true
         (if display_message
          then set_chess_clock (chess_clock c ++ [Wire.GAME_OVER])%list c
          else c)).
Proof.
  destruct c as [port L b w cd wm go tl mt].
  destruct display_message, b as [b|], w as [w|]; reflexivity.
Qed.

Lemma won_returns (code : byte) (c : ChessClock) :
  (write [code] ;; game_over false) c
  = Returns tt
      (set_game_over_event true (set_chess_clock (chess_clock c ++ [code])%list c)).
Proof. unfold bind, write, modify. now rewrite game_over_returns. Qed.

Lemma move_made_returns (now : datetime) (c : ChessClock) :
  move_made now c
  = Returns tt
      (set_white_to_move (negb (white_to_move c))
         (set_time_left_at_move
            (if white_to_move c then displayed_wtime c else displayed_btime c)
            (set_move_time (Assigned (Some now)) c))).
Proof. destruct c as [port L b w cd [|] go tl mt]; reflexivity. Qed.

(** Every [move_made] flips the turn. *)
Lemma move_made_flips (now : datetime) (c : ChessClock) :
  white_to_move (state_of (move_made now c)) = negb (white_to_move c).
Proof. now rewrite move_made_returns. Qed.

End Methods.

(** ** What [initialize_clock] does *)

Lemma initialize_clock_reset_returns
    (init_event : game_event) (st : clock_state) (c : ChessClock) :
  ev_state init_event = Some st ->
  initialize_clock_reset init_event c
  = Returns tt
      (set_time_left_at_move None
         (set_displayed_btime (Some (milliseconds (btime st)))
            (set_displayed_wtime (Some (milliseconds (wtime st)))
               (set_white_to_move true (set_move_time (Assigned None) c))))).
Proof. intros H. unfold initialize_clock_reset, bind, modify. now rewrite H. Qed.

Lemma initialize_clock_unfold
    (init_event : game_event) (now : datetime) (c : ChessClock) :
  countdown c <> Some true ->
  initialize_clock init_event now c
  = (initialize_clock_reset init_event ;;
     move_made now ;;
     modify (set_countdown (Some true))) c.
Proof.
  intros H. unfold initialize_clock, bind at 1, get.
  destruct (countdown c) as [[|]|]; congruence.
Qed.

(** The state in which [initialize_clock] returns. *)
Lemma initialize_clock_returns
    (init_event : game_event) (st : clock_state) (now : datetime) (c : ChessClock) :
  ev_state init_event = Some st ->
  countdown c <> Some true ->
  initialize_clock init_event now c
  = Returns tt
      (set_countdown (Some true)
         (set_white_to_move false
            (set_time_left_at_move (Some (milliseconds (wtime st)))
               (set_move_time (Assigned (Some now))
                  (set_time_left_at_move None
                     (set_displayed_btime (Some (milliseconds (btime st)))
                        (set_displayed_wtime (Some (milliseconds (wtime st)))
                           (set_white_to_move true
                              (set_move_time (Assigned None) c))))))))).
Proof.
  intros Hst Halive.
  rewrite (initialize_clock_unfold init_event now c Halive).
  unfold bind at 1 2.
  rewrite (initialize_clock_reset_returns init_event st c Hst).
  now rewrite move_made_returns.
Qed.

(** ** One pass of the timer loop, case by case *)

Section TimerPass.

Variable now : datetime.

Lemma time_keeper_body_game_over (c : ChessClock) :
  game_over_event c = true ->
  time_keeper_body now c
  = Raises (NicLinkGameOver exiting_message) c.
Proof. unfold time_keeper_body, bind, get. now intros ->. Qed.

Lemma time_keeper_body_unassigned (c : ChessClock) :
  game_over_event c = false -> move_time c = Unassigned ->
  time_keeper_body now c = Raises (AttributeError "move_time") c.
Proof. unfold time_keeper_body, bind, get. now intros -> ->. Qed.

(** The four guards: a pass that finds one of the values [None] only
    sleeps. *)
Lemma time_keeper_body_idle (c : ChessClock) (mt : option datetime) :
  game_over_event c = false ->
  move_time c = Assigned mt ->
  mt = None \/ time_left_at_move c = None
  \/ displayed_btime c = None \/ displayed_wtime c = None ->
  time_keeper_body now c = Returns Continue c.
Proof.
  unfold time_keeper_body, bind, get, ret. intros -> -> H.
  destruct mt as [mt|]; [|reflexivity].
  destruct (time_left_at_move c); [|reflexivity].
  destruct (displayed_btime c); [|reflexivity].
  destruct (displayed_wtime c); [|reflexivity].
  destruct H as [H|[H|[H|H]]]; discriminate.
Qed.

Section Seeded.

Variables (c : ChessClock) (mt : datetime) (tl b w : timedelta).
Hypothesis Hover : game_over_event c = false.
Hypothesis Hmt : move_time c = Assigned (Some mt).
Hypothesis Htl : time_left_at_move c = Some tl.
Hypothesis Hb : displayed_btime c = Some b.
Hypothesis Hw : displayed_wtime c = Some w.

(** White to move: the flag test reads the extrapolated time. *)
Lemma time_keeper_body_white :
  white_to_move c = true ->
  time_keeper_body now c
  = if did_flag (tl - since now mt)
    then Raises (NicLinkGameOver "white flaged")
           (set_game_over_event true
              (set_chess_clock (chess_clock c ++ [Wire.WHITE_WON])%list c))
    else Returns Continue (shown (tl - since now mt) b c).
Proof.
  intros Hturn. unfold time_keeper_body, bind at 1 2 3 4 5 6, get.
  rewrite Hover, Hmt, Htl, Hb, Hw, Hturn.
  destruct (did_flag (tl - since now mt)).
  - unfold bind at 1, white_won. now rewrite won_returns.
  - unfold bind. now rewrite updateLCD_returns.
Qed.

(** Black to move: the flag test reads the stored [displayed_btime],
    and the stored black time is passed on as the white time. *)
Lemma time_keeper_body_black :
  white_to_move c = false ->
  time_keeper_body now c
  = if did_flag b
    then Raises (NicLinkGameOver "black flaged")
           (set_game_over_event true
              (set_chess_clock (chess_clock c ++ [Wire.BLACK_WON])%list c))
    else Returns Continue (shown b (tl - since now mt) c).
Proof.
  intros Hturn. unfold time_keeper_body, bind at 1 2 3 4 5 6, get.
  rewrite Hover, Hmt, Htl, Hb, Hw, Hturn.
  destruct (did_flag b).
  - unfold bind at 1, black_won. now rewrite won_returns.
  - unfold bind. now rewrite updateLCD_returns.
Qed.

End Seeded.

(** No pass ends in [Break]. *)
Lemma time_keeper_body_never_breaks (c c' : ChessClock) :
  time_keeper_body now c <> Returns Break c'.
Proof.
  destruct (game_over_event c) eqn:Hover.
  { now rewrite time_keeper_body_game_over. }
  destruct (move_time c) as [|[mt|]] eqn:Hmt.
  { now rewrite time_keeper_body_unassigned. }
  2:{ rewrite (time_keeper_body_idle c None); auto; discriminate. }
  destruct (time_left_at_move c) as [tl|] eqn:Htl.
  2:{ rewrite (time_keeper_body_idle c (Some mt)); auto; discriminate. }
  destruct (displayed_btime c) as [b|] eqn:Hb.
  2:{ rewrite (time_keeper_body_idle c (Some mt)); auto; discriminate. }
  destruct (displayed_wtime c) as [w|] eqn:Hw.
  2:{ rewrite (time_keeper_body_idle c (Some mt)); auto 6; discriminate. }
  destruct (white_to_move c) eqn:Hturn.
  - rewrite (time_keeper_body_white c mt tl b w) by assumption.
    destruct (did_flag _); discriminate.
  - rewrite (time_keeper_body_black c mt tl b w) by assumption.
    destruct (did_flag _); discriminate.
Qed.

End TimerPass.

(** ** What each method writes *)

Section PortFixed.

Lemma port_fixed_ret {A} (a : A) : port_fixed (ret a).
Proof. intros c. reflexivity. Qed.

Lemma port_fixed_raise {A} (e : exn) : port_fixed (@raise A e).
Proof. intros c. reflexivity. Qed.

Lemma port_fixed_bind {A B} (m : M A) (k : A -> M B) :
  port_fixed m -> (forall a, port_fixed (k a)) -> port_fixed (bind m k).
Proof.
  intros Hm Hk c. specialize (Hm c). unfold bind.
  destruct (m c) as [a c'|e c']; cbn in Hm |- *; [|exact Hm].
  now rewrite Hk.
Qed.

Lemma port_fixed_written {A} (m : M A) (c : ChessClock) :
  port_fixed m -> written m c = [].
Proof. intros H. apply written_eq. now rewrite H, app_nil_r. Qed.

Lemma port_fixed_move_made now : port_fixed (move_made now).
Proof. intros c. now rewrite move_made_returns. Qed.

Lemma port_fixed_initialize_clock ev now : port_fixed (initialize_clock ev now).
Proof.
  intros c. unfold initialize_clock, initialize_clock_reset.
  destruct c as [port L b w [[|]|] wm go tl mt];
    destruct (ev_state ev); reflexivity.
Qed.

Lemma port_fixed_stream_events b stream : port_fixed (stream_events b stream).
Proof.
  revert b. induction stream as [|[ev now] rest IH]; intros b; cbn [stream_events].
  - apply port_fixed_ret.
  - apply port_fixed_bind; [|intros _; apply port_fixed_bind; [|intros _; apply IH]].
    + destruct b; [apply port_fixed_initialize_clock | apply port_fixed_ret].
    + destruct (String.eqb _ _); [|apply port_fixed_ret].
      apply port_fixed_bind; [now intros c | intros _; apply port_fixed_move_made].
Qed.

End PortFixed.

Section Written.

Variable c : ChessClock.

Lemma written_game_over (display_message : bool) :
  written (game_over display_message) c
  = if display_message then [Wire.GAME_OVER] else [].
Proof.
  apply written_eq. rewrite game_over_returns.
  destruct display_message; cbn; [reflexivity | now rewrite app_nil_r].
Qed.

Lemma written_won (code : byte) :
  written (write [code] ;; game_over false) c = [code].
Proof. apply written_eq. now rewrite won_returns. Qed.

Lemma written_show_splash : written show_splash c = [Wire.SPLASH].
Proof. now apply written_eq. Qed.

Lemma written_send_string (message : string) :
  written (send_string message) c
  = Wire.SHOW_TEXT :: match encode_ascii message with
                      | Some bs => bs
                      | None => []
                      end.
Proof.
  apply written_eq. unfold send_string, bind, write, modify.
  destruct (encode_ascii message); cbn; [now rewrite <- app_assoc | reflexivity].
Qed.

Lemma written_updateLCD (wtime btime : timedelta) :
  written (updateLCD wtime btime) c
  = Wire.SHOW_TEXT :: list_byte_of_string (frame_of (lcd_length c) wtime btime).
Proof. apply written_eq. now rewrite updateLCD_returns. Qed.

Lemma written_start_new_game (stream : list (game_event * datetime)) :
  written (start_new_game stream) c = [Wire.NEW_GAME].
Proof.
  apply written_eq. unfold start_new_game, bind at 1 2, write, modify.
  now rewrite port_fixed_stream_events.
Qed.

End Written.

(** A pass writes nothing and leaves the state alone, or starts its
    writing with the code of a frame or of a win. *)
Lemma time_keeper_body_writes (now : datetime) (c : ChessClock) :
  time_keeper_body now c = Returns Continue c
  \/ (exists e, time_keeper_body now c = Raises e c)
  \/ (exists code rest,
        In code [Wire.SHOW_TEXT; Wire.WHITE_WON; Wire.BLACK_WON]
        /\ written (time_keeper_body now) c = code :: rest).
Proof.
  destruct (game_over_event c) eqn:Hover.
  { right; left. eexists. now apply time_keeper_body_game_over. }
  destruct (move_time c) as [|mt] eqn:Hmt.
  { right; left. eexists. now apply time_keeper_body_unassigned. }
  destruct mt as [mt|];
    [|left; apply (time_keeper_body_idle now c None); auto].
  destruct (time_left_at_move c) as [tl|] eqn:Htl;
    [|left; apply (time_keeper_body_idle now c (Some mt)); auto].
  destruct (displayed_btime c) as [b|] eqn:Hb;
    [|left; apply (time_keeper_body_idle now c (Some mt)); auto].
  destruct (displayed_wtime c) as [w|] eqn:Hw;
    [|left; apply (time_keeper_body_idle now c (Some mt)); auto 6].
  right; right.
  destruct (white_to_move c) eqn:Hturn.
  - pose proof (time_keeper_body_white now c mt tl b w Hover Hmt Htl Hb Hw Hturn) as E.
    destruct (did_flag (tl - since now mt)).
    + exists Wire.WHITE_WON, []. split; [cbn; auto|].
      apply written_eq. now rewrite E.
    + exists Wire.SHOW_TEXT. eexists. split; [cbn; auto|].
      apply written_eq. rewrite E. reflexivity.
  - pose proof (time_keeper_body_black now c mt tl b w Hover Hmt Htl Hb Hw Hturn) as E.
    destruct (did_flag b).
    + exists Wire.BLACK_WON, []. split; [cbn; auto|].
      apply written_eq. now rewrite E.
    + exists Wire.SHOW_TEXT. eexists. split; [cbn; auto|].
      apply written_eq. rewrite E. reflexivity.
Qed.

(** The first byte a run of the timer loop writes, if it writes any, is
    the code of a frame or of a win. *)
Lemma written_time_keeper_head (nows : list datetime) (c : ChessClock) :
  match written (time_keeper nows) c with
  | [] => True
  | code :: _ => In code [Wire.SHOW_TEXT; Wire.WHITE_WON; Wire.BLACK_WON]
  end.
Proof.
  revert c. induction nows as [|now rest IH]; intros c; cbn [time_keeper].
  { now rewrite (port_fixed_written _ c (port_fixed_ret Continue)). }
  rewrite written_bind;
    [| apply port_extends_time_keeper_body
     | intros [|]; [apply port_extends_time_keeper | apply port_extends_ret]].
  destruct (time_keeper_body_writes now c) as [E|[[e E]|(code & tl & Hin & E)]].
  - rewrite (written_eq (time_keeper_body now) c []), E;
      [apply IH | now rewrite E, app_nil_r].
  - rewrite (written_eq (time_keeper_body now) c []), E;
      [exact I | now rewrite E, app_nil_r].
  - rewrite E. exact Hin.
Qed.

(** ** The configured width never changes *)

Section Width.

Lemma width_fixed_ret {A} (a : A) : width_fixed (ret a).
Proof. intros c. reflexivity. Qed.

Lemma width_fixed_raise {A} (e : exn) : width_fixed (@raise A e).
Proof. intros c. reflexivity. Qed.

Lemma width_fixed_get {A} (f : ChessClock -> A) : width_fixed (get f).
Proof. intros c. reflexivity. Qed.

Lemma width_fixed_modify (f : ChessClock -> ChessClock) :
  (forall c, lcd_length (f c) = lcd_length c) -> width_fixed (modify f).
Proof. intros H c. apply H. Qed.

Lemma width_fixed_bind {A B} (m : M A) (k : A -> M B) :
  width_fixed m -> (forall a, width_fixed (k a)) -> width_fixed (bind m k).
Proof.
  intros Hm Hk c. specialize (Hm c). unfold bind.
  destruct (m c) as [a c'|e c']; cbn in Hm |- *; [|exact Hm].
  now rewrite Hk.
Qed.

End Width.

Create HintDb width.
#[local] Hint Resolve width_fixed_ret width_fixed_raise width_fixed_get
  width_fixed_bind : width.
#[local] Hint Extern 1 (width_fixed (modify _)) =>
  apply width_fixed_modify; intros; reflexivity : width.
#[local] Hint Extern 1 (width_fixed (write _)) =>
  apply width_fixed_modify; intros; reflexivity : width.

Ltac width_step :=
  match goal with
  | |- width_fixed (bind _ _) => apply width_fixed_bind; [|intros]
  | |- width_fixed (if ?b then _ else _) => destruct b
  | |- width_fixed (match ?x with _ => _ end) => destruct x
  | |- _ => solve [auto with width]
  end.
Ltac width_solve := repeat width_step.

Section MethodsKeepWidth.

Lemma width_fixed_move_made now : width_fixed (move_made now).
Proof. unfold move_made. width_solve. Qed.

Lemma width_fixed_create_timestamp w b : width_fixed (create_timestamp w b).
Proof. unfold create_timestamp. width_solve. Qed.

Lemma width_fixed_updateLCD w b : width_fixed (updateLCD w b).
Proof. intros c. now rewrite updateLCD_returns. Qed.

Lemma width_fixed_game_over d : width_fixed (game_over d).
Proof. intros c. rewrite game_over_returns. now destruct d. Qed.

Lemma width_fixed_initialize_clock ev now : width_fixed (initialize_clock ev now).
Proof.
  unfold initialize_clock, initialize_clock_reset.
  pose proof width_fixed_move_made. width_solve.
Qed.

Lemma width_fixed_stream_events b stream : width_fixed (stream_events b stream).
Proof.
  revert b. induction stream as [|[ev now] rest IH]; intros b; cbn [stream_events].
  - auto with width.
  - pose proof width_fixed_initialize_clock.
    pose proof width_fixed_move_made. width_solve.
Qed.

Lemma width_fixed_time_keeper_body now : width_fixed (time_keeper_body now).
Proof.
  unfold time_keeper_body, white_won, black_won.
  pose proof width_fixed_game_over. pose proof width_fixed_updateLCD.
  width_solve.
Qed.

Lemma width_fixed_time_keeper nows : width_fixed (time_keeper nows).
Proof.
  induction nows as [|now rest IH]; cbn [time_keeper].
  - auto with width.
  - pose proof width_fixed_time_keeper_body. width_solve.
Qed.

Lemma width_fixed_call (m : method) : width_fixed (call m).
Proof.
  destruct m; cbn [call];
    unfold send_string, start_new_game, show_splash, white_won, black_won,
      drawn_game;
    pose proof width_fixed_move_made; pose proof width_fixed_updateLCD;
    pose proof width_fixed_game_over; pose proof width_fixed_stream_events;
    pose proof width_fixed_initialize_clock;
    pose proof width_fixed_create_timestamp;
    pose proof width_fixed_time_keeper; width_solve.
Qed.

(** Every clock in use has the width sixteen. *)
Lemma reachable_lcd_length (c : ChessClock) : reachable c -> lcd_length c = 16.
Proof.
  induction 1 as [c E|m c _ IH|c _ IH].
  - injection E as <-. reflexivity.
  - now rewrite width_fixed_call.
  - exact IH.
Qed.

End MethodsKeepWidth.

(** * The claims of the specification, on the code *)

(** ** C1: the flag scenario *)

(** C1 on the code.  After [initialize_clock] with two seconds for white
    and sixty for black, the pass three seconds later takes the branch
    for black to move, finds the stored black time positive, and sends
    the frame with the extrapolated minus one second on the black line;
    [game_over_event] stays clear and no BLACK_WON is written.  That byte
    goes out one pass later, when the stored black time is the negative
    one.  In the other branch, one [move_made] later, a pass that finds
    the extrapolated time spent writes WHITE_WON. *)
Theorem flag_scenario_shows_text :
  let c := seeded 2000 60000 in
  let pass1 := time_keeper_body (after t0 (seconds 3)) in
  let pass2 := time_keeper_body (after t0 (milliseconds 3500)) in
  (exists c1,
     pass1 c = Returns Continue c1
     /\ written pass1 c = list_byte_of_string "3W: 0:01:00      B: -1 day, 23:59"
     /\ ~ In Wire.BLACK_WON (written pass1 c)
     /\ game_over_event c1 = false
     /\ exists c2,
          pass2 c1 = Raises (NicLinkGameOver "black flaged") c2
          /\ written pass2 c1 = [Wire.BLACK_WON]
          /\ game_over_event c2 = true)
  /\ (let c' := state_of (move_made (after t0 (seconds 1)) c) in
      let pass := time_keeper_body (after t0 (seconds 62)) in
      white_to_move c' = true
      /\ written pass c' = [Wire.WHITE_WON]
      /\ exists c'', pass c' = Raises (NicLinkGameOver "white flaged") c'').
Proof.
  cbv zeta. split.
  - eexists. split; [vm_compute; reflexivity|].
    split; [vm_compute; reflexivity|].
    split.
    { vm_compute. intros H.
      repeat (destruct H as [H|H]; [discriminate H|]). exact H. }
    split; [reflexivity|].
    eexists. split; [vm_compute; reflexivity|].
    split; vm_compute; reflexivity.
  - split; [reflexivity|]. split; [vm_compute; reflexivity|].
    eexists. vm_compute. reflexivity.
Qed.

(** ** C2: the turn after the seeding call *)

(** C2 on the code.  Whatever the snapshot, [initialize_clock], which
    makes the seeding call of [move_made], returns with [white_to_move]
    cleared; one further [move_made] sets it, a second one clears it
    again.  Every call flips the turn, but the seed leaves black to
    move. *)
Theorem seed_clears_white_to_move
    (init_event : game_event) (st : clock_state)
    (now t1 t2 : datetime) (c : ChessClock) :
  ev_state init_event = Some st ->
  countdown c <> Some true ->
  let seed := initialize_clock init_event now in
  white_to_move (state_of (seed c)) = false
  /\ white_to_move (state_of ((seed ;; move_made t1) c)) = true
  /\ white_to_move (state_of ((seed ;; move_made t1 ;; move_made t2) c)) = false.
Proof.
  intros Hst Halive seed. unfold seed.
  pose proof (initialize_clock_returns init_event st now c Hst Halive) as E.
  unfold bind. rewrite E.
  repeat (rewrite move_made_returns; cbv beta iota).
  repeat split.
Qed.

Lemma seed_clears_white_to_move_witness :
  ev_state (game_full 2000 60000) = Some {| wtime := 2000; btime := 60000 |}
  /\ countdown new_clock <> Some true
  /\ white_to_move (seeded 2000 60000) = false.
Proof.
  split; [reflexivity|]. split; [discriminate|].
  apply (seed_clears_white_to_move (game_full 2000 60000)
           {| wtime := 2000; btime := 60000 |} t0 t0 t0 new_clock eq_refl).
  discriminate.
Defined.

(** ** C3: the stored time of the side that is not running *)

(** With white to move the pass stores the extrapolated time as white's
    and leaves black's stored time alone. *)
Lemma white_pass_keeps_black_time
    (now mt : datetime) (tl b w : timedelta) (c : ChessClock) :
  game_over_event c = false ->
  move_time c = Assigned (Some mt) ->
  time_left_at_move c = Some tl ->
  displayed_btime c = Some b ->
  displayed_wtime c = Some w ->
  white_to_move c = true ->
  did_flag (tl - since now mt) = false ->
  exists c',
    time_keeper_body now c = Returns Continue c'
    /\ displayed_wtime c' = Some (tl - since now mt)
    /\ displayed_btime c' = Some b.
Proof.
  intros Hover Hmt Htl Hb Hw Hturn Hflag. eexists.
  rewrite (time_keeper_body_white now c mt tl b w) by assumption.
  rewrite Hflag. repeat split.
Qed.

(** C3 on the code.  With black to move, a pass that does not flag
    stores the extrapolated time as black's, and stores black's previous
    time as white's: the stored time of the side that is not running is
    overwritten, whatever it was. *)
Theorem black_pass_overwrites_white_time
    (now mt : datetime) (tl b w : timedelta) (c : ChessClock) :
  game_over_event c = false ->
  move_time c = Assigned (Some mt) ->
  time_left_at_move c = Some tl ->
  displayed_btime c = Some b ->
  displayed_wtime c = Some w ->
  white_to_move c = false ->
  did_flag b = false ->
  exists c',
    time_keeper_body now c = Returns Continue c'
    /\ displayed_btime c' = Some (tl - since now mt)
    /\ displayed_wtime c' = Some b.
Proof.
  intros Hover Hmt Htl Hb Hw Hturn Hflag. eexists.
  rewrite (time_keeper_body_black now c mt tl b w) by assumption.
  rewrite Hflag. repeat split.
Qed.

(** After [initialize_clock] with ninety seconds for white and sixty for
    black, the pass ten seconds later turns white's stored ninety seconds
    into sixty. *)
Lemma black_pass_overwrites_white_time_witness :
  let c := seeded 90000 60000 in
  white_to_move c = false
  /\ displayed_wtime c = Some (seconds 90)
  /\ displayed_btime c = Some (seconds 60)
  /\ exists c',
       time_keeper_body (after t0 (seconds 10)) c = Returns Continue c'
       /\ displayed_btime c' = Some (seconds 80)
       /\ displayed_wtime c' = Some (seconds 60).
Proof.
  cbv zeta. repeat (split; [reflexivity|]).
  apply (black_pass_overwrites_white_time (after t0 (seconds 10)) t0
           (seconds 90) (seconds 60) (seconds 90) (seeded 90000 60000));
    reflexivity.
Defined.

(** ** C4: the value the flag test reads *)

(** C4 on the code.  With black to move, whether the pass flags depends
    on the stored black time alone: it raises exactly when that stored
    time has run out and sends a frame exactly when it has not, at
    whatever instant it runs and whatever the extrapolated time is. *)
Theorem black_flag_test_reads_stored_time
    (now mt : datetime) (tl b w : timedelta) (c : ChessClock) :
  game_over_event c = false ->
  move_time c = Assigned (Some mt) ->
  time_left_at_move c = Some tl ->
  displayed_btime c = Some b ->
  displayed_wtime c = Some w ->
  white_to_move c = false ->
  (did_flag b = true
   <-> exists c', time_keeper_body now c
                  = Raises (NicLinkGameOver "black flaged") c')
  /\ (did_flag b = false
      <-> exists c', time_keeper_body now c = Returns Continue c').
Proof.
  intros Hover Hmt Htl Hb Hw Hturn.
  rewrite (time_keeper_body_black now c mt tl b w) by assumption.
  destruct (did_flag b); split; split;
    try (intros _; eexists; reflexivity);
    try (intros [c' E]; discriminate E);
    try discriminate; reflexivity.
Qed.

(** After [initialize_clock] with two seconds for white and sixty for
    black, the time extrapolated three seconds later has flagged, and the
    pass sends a frame. *)
Lemma black_flag_test_reads_stored_time_witness :
  let c := seeded 2000 60000 in
  let now := after t0 (seconds 3) in
  white_to_move c = false
  /\ did_flag (seconds 2 - since now t0) = true
  /\ exists c', time_keeper_body now c = Returns Continue c'.
Proof.
  cbv zeta. repeat (split; [reflexivity|]).
  apply (black_flag_test_reads_stored_time (after t0 (seconds 3)) t0
           (seconds 2) (seconds 60) (seconds 2) (seeded 2000 60000));
    reflexivity.
Defined.

(** With a pass every half second from the start, the pass at two
    seconds extrapolates exactly zero and still sends a frame; the flag is
    raised by the pass after it. *)
Example flag_one_pass_late :
  let every_half_second n :=
    map (fun k => after t0 (milliseconds (500 * Z.of_nat k))) (seq 0 n) in
  (exists c', time_keeper (every_half_second 5%nat) (seeded 2000 60000)
              = Returns Continue c'
              /\ displayed_btime c' = Some 0
              /\ game_over_event c' = false)
  /\ (exists c', time_keeper (every_half_second 6%nat) (seeded 2000 60000)
                 = Raises (NicLinkGameOver "black flaged") c'
                 /\ game_over_event c' = true).
Proof.
  cbv zeta. split; eexists; (split; [vm_compute; reflexivity|]);
    repeat split.
Qed.

(** ** C5: what [initialize_clock] leaves of a finished game *)

Lemma initialize_clock_keeps_the_event
    (init_event : game_event) (now : datetime) (c : ChessClock) :
  game_over_event (state_of (initialize_clock_reset init_event c))
  = game_over_event c
  /\ game_over_event (state_of (initialize_clock init_event now c))
     = game_over_event c.
Proof.
  unfold initialize_clock, initialize_clock_reset.
  destruct c as [port L b w [[|]|] wm go tl mt];
    destruct (ev_state init_event); split; reflexivity.
Qed.

Lemma after_moves_keeps_the_event (moves : list datetime) (c : ChessClock) :
  game_over_event (after_moves moves c) = game_over_event c.
Proof.
  unfold after_moves. revert c.
  induction moves as [|now rest IH]; intros c; [reflexivity|].
  cbn [fold_left]. rewrite IH. now rewrite move_made_returns.
Qed.

(** C5 on the code.  [initialize_clock] does not clear the game-over
    event: on a clock whose event is set, the event is still set after
    the reset and when the call has started the timer or has raised, for
    every event and every instant; and the timer then raises
    [NicLinkGameOver] in its first pass, whenever that pass is made and
    however many moves have come before it, without writing or changing
    anything. *)
Theorem initialize_clock_leaves_game_over_set
    (init_event : game_event) (now pass : datetime)
    (moves passes : list datetime) (c : ChessClock) :
  game_over_event c = true ->
  let c' := after_moves moves (state_of (initialize_clock init_event now c)) in
  game_over_event (state_of (initialize_clock_reset init_event c)) = true
  /\ game_over_event (state_of (initialize_clock init_event now c)) = true
  /\ time_keeper (pass :: passes) c'
     = Raises (NicLinkGameOver exiting_message) c'.
Proof.
  intros Hover c'.
  destruct (initialize_clock_keeps_the_event init_event now c) as [Hreset Hcall].
  rewrite Hover in Hreset, Hcall.
  split; [exact Hreset|]. split; [exact Hcall|].
  assert (Hover' : game_over_event c' = true).
  { unfold c'. now rewrite after_moves_keeps_the_event. }
  cbn [time_keeper]. unfold bind.
  now rewrite (time_keeper_body_game_over pass c' Hover').
Qed.

(** On the clock of the game that ended on a flag, its timer dead, a new
    game of five minutes each: the call returns, the event is still set,
    and the new timer stops at once. *)
Lemma initialize_clock_leaves_game_over_set_witness :
  let init_event := game_full 300000 300000 in
  let now := after t0 (minutes 10) in
  game_over_event game_ended = true
  /\ countdown game_ended = Some false
  /\ exists c',
       initialize_clock init_event now game_ended = Returns tt c'
       /\ game_over_event c' = true
       /\ time_keeper [after now (milliseconds 1)] c'
          = Raises (NicLinkGameOver exiting_message) c'.
Proof.
  cbv zeta. split; [reflexivity|]. split; [reflexivity|].
  eexists. split; [reflexivity|].
  apply (initialize_clock_leaves_game_over_set (game_full 300000 300000)
           (after t0 (minutes 10))
           (after (after t0 (minutes 10)) (milliseconds 1)) [] [] game_ended).
  reflexivity.
Defined.

(** ** C6: how the timer loop stops *)

Lemma time_keeper_never_breaks (nows : list datetime) (c c' : ChessClock) :
  time_keeper nows c <> Returns Break c'.
Proof.
  revert c. induction nows as [|now rest IH]; intros c; [discriminate|].
  cbn [time_keeper]. unfold bind.
  destruct (time_keeper_body now c) as [[|] c1|e c1] eqn:E.
  - apply IH.
  - now apply time_keeper_body_never_breaks in E.
  - discriminate.
Qed.

(** C6, as the code has it.  When the timer loop finds [game_over_event]
    set at the top of a pass, it stops by raising [NicLinkGameOver],
    writing nothing and leaving the state as it was; and no run of the
    loop ever ends by leaving the loop normally. *)
Theorem time_keeper_stops_by_raising
    (now : datetime) (rest : list datetime) (c : ChessClock) :
  game_over_event c = true ->
  time_keeper (now :: rest) c
  = Raises (NicLinkGameOver exiting_message) c
  /\ forall nows c0 c', time_keeper nows c0 <> Returns Break c'.
Proof.
  intros Hover. split; [|apply time_keeper_never_breaks].
  cbn [time_keeper]. unfold bind.
  now rewrite time_keeper_body_game_over.
Qed.

Lemma time_keeper_stops_by_raising_witness :
  game_over_event game_ended = true
  /\ time_keeper [after t0 (seconds 4); after t0 (milliseconds 4500)] game_ended
     = Raises (NicLinkGameOver exiting_message) game_ended.
Proof.
  split; [reflexivity|].
  apply (time_keeper_stops_by_raising (after t0 (seconds 4))
           [after t0 (milliseconds 4500)] game_ended).
  reflexivity.
Defined.

(** C6, as stated, fails: on the clock of the ended game the pass does
    not end normally, it raises. *)
Lemma time_keeper_raises_on_game_over :
  game_over_event game_ended = true
  /\ (forall c', time_keeper_body (after t0 (seconds 4)) game_ended
                 <> Returns Break c')
  /\ exists message,
       time_keeper_body (after t0 (seconds 4)) game_ended
       = Raises (NicLinkGameOver message) game_ended.
Proof.
  split; [reflexivity|]. split; [intros c'; discriminate|].
  eexists. reflexivity.
Qed.

(** ** C7: the bytes of the commands *)

(** C7, as the code has it.  Each command without payload that the class
    can send writes exactly one byte, its code: GAME_OVER '2', NEW_GAME
    '4', SPLASH '5', WHITE_WON '6', BLACK_WON '7', DRAWN '8'.  SHOW_TEXT
    writes '3' and then the bytes of the message, which for [updateLCD]
    are the bytes of the frame.  The class has no method for HELLO. *)
Theorem command_bytes (c : ChessClock) :
  written (game_over true) c = ["2"%byte]
  /\ (forall stream, written (start_new_game stream) c = ["4"%byte])
  /\ written show_splash c = ["5"%byte]
  /\ written white_won c = ["6"%byte]
  /\ written black_won c = ["7"%byte]
  /\ written drawn_game c = ["8"%byte]
  /\ (forall message,
        written (send_string message) c
        = "3"%byte :: match encode_ascii message with
                      | Some bs => bs
                      | None => []
                      end)
  /\ (forall wtime btime,
        written (updateLCD wtime btime) c
        = "3"%byte :: list_byte_of_string (frame_of (lcd_length c) wtime btime)).
Proof.
  split; [apply (written_game_over c true)|].
  split; [apply written_start_new_game|].
  split; [apply written_show_splash|].
  split; [apply written_won|].
  split; [apply written_won|].
  split; [apply written_won|].
  split; [apply written_send_string | apply written_updateLCD].
Qed.

(** C7, as stated, fails for HELLO: '@' is not among the codes the class
    sends, and no call of any method writes exactly that byte. *)
Lemma no_method_sends_hello :
  ~ In Wire.HELLO sent_codes
  /\ forall (m : method) (c : ChessClock), written (call m) c <> [Wire.HELLO].
Proof.
  split.
  { cbn. intros H. repeat (destruct H as [H|H]; [discriminate H|]). exact H. }
  intros m c. destruct m; cbn [call].
  - now rewrite (port_fixed_written _ c (port_fixed_move_made now)).
  - now rewrite written_updateLCD.
  - rewrite written_game_over. now destruct display_message.
  - now rewrite written_send_string.
  - now rewrite written_start_new_game.
  - now rewrite written_show_splash.
  - unfold white_won. now rewrite written_won.
  - unfold black_won. now rewrite written_won.
  - unfold drawn_game. now rewrite written_won.
  - now rewrite (port_fixed_written _ c (port_fixed_initialize_clock init_event now)).
  - rewrite port_fixed_written; [discriminate|].
    apply port_fixed_bind; [now intros c0 | intros; apply port_fixed_ret].
  - rewrite written_bind;
      [| apply port_extends_time_keeper | intros; apply port_extends_ret].
    pose proof (written_time_keeper_head nows c) as Hhead.
    assert (forall r : result control,
              match r with
              | Returns _ c' => written (ret tt) c'
              | Raises _ _ => []
              end = []) as ->.
    { intros [a c'|e c']; [|reflexivity].
      apply (port_fixed_written _ c' (port_fixed_ret tt)). }
    rewrite app_nil_r. intros E. rewrite E in Hhead. cbn in Hhead.
    repeat (destruct Hhead as [Hhead|Hhead]; [discriminate Hhead|]). exact Hhead.
Qed.

(** ** C8: the frame *)

(** C8.  For every pair of durations and every width that is not
    negative, [create_timestamp] returns the white line followed by the
    black line, each line being "<side>: <duration>" cut to the width
    when longer and padded on the right with spaces when shorter; each
    line has exactly the width, and the frame twice the width. *)
Theorem create_timestamp_frame (wtime btime : timedelta) (c : ChessClock) :
  0 <= lcd_length c ->
  let width := Z.to_nat (lcd_length c) in
  let white_line := spec_line width ("W: " ++ str wtime) in
  let black_line := spec_line width ("B: " ++ str btime) in
  (exists c', create_timestamp wtime btime c = Returns (white_line ++ black_line) c')
  /\ String.length white_line = width
  /\ String.length black_line = width
  /\ String.length (white_line ++ black_line) = (2 * width)%nat.
Proof.
  intros Hw width white_line black_line.
  repeat split.
  - eexists. unfold create_timestamp, bind, modify, get, ret. cbn.
    rewrite !lcd_line_spec by assumption. reflexivity.
  - apply length_spec_line.
  - apply length_spec_line.
  - rewrite length_append. unfold white_line, black_line.
    rewrite !length_spec_line. lia.
Qed.

Lemma create_timestamp_frame_witness :
  0 <= lcd_length new_clock
  /\ String.length (spec_line 16 ("W: " ++ str (minutes 1))
                    ++ spec_line 16 ("B: " ++ str (seconds (-1)))) = 32%nat.
Proof.
  split; [simpl; lia |].
  apply (create_timestamp_frame (minutes 1) (seconds (-1)) new_clock).
  simpl. lia.
Defined.

(** On every clock in use the frame has thirty-two characters. *)
Lemma frame_on_reachable_clock (wtime btime : timedelta) (c : ChessClock) :
  reachable c ->
  exists frame c',
    create_timestamp wtime btime c = Returns frame c'
    /\ String.length frame = 32%nat.
Proof.
  intros Hc. pose proof (reachable_lcd_length c Hc) as HL.
  do 2 eexists. split; [apply create_timestamp_returns|].
  unfold frame_of. rewrite HL, length_append, !lcd_line_spec by lia.
  now rewrite !length_spec_line.
Qed.

Example frame_of_new_clock :
  written (updateLCD (minutes 1) (seconds (-1))) new_clock
  = list_byte_of_string "3W: 0:01:00      B: -1 day, 23:59".
Proof. vm_compute. reflexivity. Qed.

(** ** C9: a pass before anything was seeded *)

(** C9 on the code.  The constructor leaves [move_time] unassigned, so on
    every clock it builds, at whatever instants the passes run, the first
    pass of the timer raises [AttributeError]; it writes nothing and
    leaves the state as it was. *)
Theorem tick_on_new_clock_raises
    (berserk_board_client logger : bool) (c : ChessClock)
    (now : datetime) (rest : list datetime) :
  __init__ berserk_board_client logger = inr c ->
  move_time c = Unassigned
  /\ time_keeper_body now c = Raises (AttributeError "move_time") c
  /\ time_keeper (now :: rest) c = Raises (AttributeError "move_time") c
  /\ written (time_keeper (now :: rest)) c = [].
Proof.
  intros Hinit.
  assert (Hc : c = new_clock).
  { unfold __init__ in Hinit.
    destruct logger, berserk_board_client; cbn in Hinit;
      try discriminate Hinit.
    now injection Hinit as <-. }
  subst c.
  assert (E : time_keeper_body now new_clock
              = Raises (AttributeError "move_time") new_clock).
  { now apply time_keeper_body_unassigned. }
  assert (E' : time_keeper (now :: rest) new_clock
               = Raises (AttributeError "move_time") new_clock).
  { cbn [time_keeper]. unfold bind. now rewrite E. }
  split; [reflexivity|]. split; [exact E|]. split; [exact E'|].
  apply written_eq. now rewrite E'.
Qed.

Lemma tick_on_new_clock_raises_witness :
  __init__ true true = inr new_clock
  /\ time_keeper_body t0 new_clock
     = Raises (AttributeError "move_time") new_clock.
Proof.
  split; [reflexivity|].
  apply (tick_on_new_clock_raises true true new_clock t0 [] eq_refl).
Defined.

(** Once [move_time] has been assigned, a pass that finds it or
    [time_left_at_move] to be [None] while the game is on changes
    nothing and raises nothing. *)
Lemma tick_before_seed_is_noop
    (now : datetime) (mt : option datetime) (c : ChessClock) :
  game_over_event c = false ->
  move_time c = Assigned mt ->
  mt = None \/ time_left_at_move c = None ->
  time_keeper_body now c = Returns Continue c
  /\ time_keeper [now] c = Returns Continue c.
Proof.
  intros Hover Hmt H.
  assert (E : time_keeper_body now c = Returns Continue c).
  { apply (time_keeper_body_idle now c mt Hover Hmt). tauto. }
  split; [exact E|]. cbn [time_keeper]. unfold bind. now rewrite E.
Qed.

(** ** C10: rendering stores its arguments *)

(** C10.  For every pair of durations, [create_timestamp] overwrites
    [displayed_wtime] with its first argument and [displayed_btime] with
    its second and changes no other field; [updateLCD] leaves the same two
    values stored and sends the frame made of them. *)
Theorem create_timestamp_overwrites_stored_times
    (wtime btime : timedelta) (c : ChessClock) :
  (exists frame c',
     create_timestamp wtime btime c = Returns frame c'
     /\ displayed_wtime c' = Some wtime
     /\ displayed_btime c' = Some btime
     /\ c' = set_displayed_btime (Some btime) (set_displayed_wtime (Some wtime) c))
  /\ (exists c'',
        updateLCD wtime btime c = Returns tt c''
        /\ displayed_wtime c'' = Some wtime
        /\ displayed_btime c'' = Some btime
        /\ written (updateLCD wtime btime) c
           = Wire.SHOW_TEXT
               :: list_byte_of_string (frame_of (lcd_length c) wtime btime)).
Proof.
  split.
  - do 2 eexists. rewrite create_timestamp_returns. repeat split.
  - eexists. rewrite updateLCD_returns. repeat split. apply written_updateLCD.
Qed.


(** * Further properties of the code *)

(** ** Properties that every method keeps *)

Section Preserves.

Context {P : ChessClock -> Prop}.

Lemma preserves_ret {A} (a : A) : preserves P (ret a).
Proof. intros c H. exact H. Qed.

Lemma preserves_raise {A} (e : exn) : preserves P (@raise A e).
Proof. intros c H. exact H. Qed.

Lemma preserves_get {A} (f : ChessClock -> A) : preserves P (get f).
Proof. intros c H. exact H. Qed.

Lemma preserves_modify (f : ChessClock -> ChessClock) :
  (forall c, P c -> P (f c)) -> preserves P (modify f).
Proof. intros Hf c H. apply Hf, H. Qed.

Lemma preserves_bind {A B} (m : M A) (k : A -> M B) :
  preserves P m -> (forall a, preserves P (k a)) -> preserves P (bind m k).
Proof.
  intros Hm Hk c H. specialize (Hm c H). unfold bind.
  destruct (m c) as [a c'|e c']; cbn in Hm |- *; [|exact Hm].
  now apply Hk.
Qed.

End Preserves.

(** Splits a method along its binds and branches; what is left are the
    assignments, one goal for each. *)
Ltac preserves_step :=
  match goal with
  | |- preserves _ (bind _ _) => apply preserves_bind; [|intros]
  | |- preserves _ (ret _) => apply preserves_ret
  | |- preserves _ (raise _) => apply preserves_raise
  | |- preserves _ (get _) => apply preserves_get
  | |- preserves _ (if ?b then _ else _) => destruct b
  | |- preserves _ (match ?x with _ => _ end) => destruct x
  | |- preserves _ (modify _) => apply preserves_modify
  | |- preserves _ (write _) => apply preserves_modify
  | H : _ |- preserves _ _ => solve [apply H]
  end.

(** The methods, with the loops taken by induction. *)
Ltac preserves_methods :=
  unfold time_keeper_body, start_new_game, initialize_clock,
    initialize_clock_reset, white_won, black_won, drawn_game, show_splash,
    game_over, updateLCD, create_timestamp, send_string, move_made;
  repeat preserves_step.

Section GameOverStays.

Lemma over_body now : preserves game_is_over (time_keeper_body now).
Proof. preserves_methods; intros ? Hc; first [exact Hc | reflexivity]. Qed.

Lemma over_time_keeper nows : preserves game_is_over (time_keeper nows).
Proof.
  induction nows as [|now rest IH]; cbn [time_keeper].
  - apply preserves_ret.
  - pose proof (over_body now) as Hbody. apply preserves_bind; [exact Hbody|].
    intros [|]; [exact IH | apply preserves_ret].
Qed.

Lemma over_initialize_clock ev now : preserves game_is_over (initialize_clock ev now).
Proof. preserves_methods; intros ? Hc; exact Hc. Qed.

Lemma over_stream_events b stream : preserves game_is_over (stream_events b stream).
Proof.
  revert b. induction stream as [|[ev now] rest IH]; intros b; cbn [stream_events].
  - apply preserves_ret.
  - pose proof (over_initialize_clock ev now).
    preserves_methods; intros ? Hc; exact Hc.
Qed.

(** X1.  No method ever clears the game-over event: once it is set, it is
    still set after any call of any method, with any arguments, whether
    the call returns or raises. *)
Theorem game_over_event_is_never_cleared (m : method) (c : ChessClock) :
  game_over_event c = true ->
  game_over_event (state_of (call m c)) = true.
Proof.
  revert c. change (preserves game_is_over (call m)).
  destruct m; cbn [call];
    try (pose proof (over_stream_events true stream));
    try (pose proof (over_time_keeper nows));
    preserves_methods; intros ? Hc; first [exact Hc | reflexivity].
Qed.

Lemma game_over_event_is_never_cleared_witness :
  game_over_event game_ended = true
  /\ game_over_event
       (state_of (call (m_start_new_game
                          [(game_full 300000 300000, after t0 (minutes 10))])
                    game_ended)) = true.
Proof.
  split; [reflexivity|].
  apply (game_over_event_is_never_cleared
           (m_start_new_game [(game_full 300000 300000, after t0 (minutes 10))])
           game_ended).
  reflexivity.
Defined.

End GameOverStays.

(** ** The timer *)

Section TimerFrame.

Variables (L : Z) (cd : option bool) (wm : bool)
          (tl : option timedelta) (mt : attr (option datetime)).

Lemma kept_body now : preserves (move_kept L cd wm tl mt) (time_keeper_body now).
Proof. preserves_methods; intros ? Hc; exact Hc. Qed.

Lemma kept_time_keeper nows : preserves (move_kept L cd wm tl mt) (time_keeper nows).
Proof.
  induction nows as [|now rest IH]; cbn [time_keeper].
  - apply preserves_ret.
  - apply preserves_bind; [apply kept_body|].
    intros [|]; [exact IH | apply preserves_ret].
Qed.

End TimerFrame.

(** X2.  A run of the timer, however long and however it ends, changes
    neither the side to move, nor the instant of the last move, nor the
    time left at that move, nor the thread, nor the width: all it can
    change are the port, the two displayed times and the game-over
    event. *)
Theorem time_keeper_keeps_the_move (nows : list datetime) (c : ChessClock) :
  let c' := state_of (time_keeper nows c) in
  white_to_move c' = white_to_move c
  /\ move_time c' = move_time c
  /\ time_left_at_move c' = time_left_at_move c
  /\ countdown c' = countdown c
  /\ lcd_length c' = lcd_length c.
Proof.
  pose proof (kept_time_keeper (lcd_length c) (countdown c) (white_to_move c)
                (time_left_at_move c) (move_time c) nows c) as H.
  destruct H as (HL & Hcd & Hwm & Htl & Hmt); [repeat split|].
  cbv zeta. auto.
Qed.

Lemma did_flag_spec (t : timedelta) : did_flag t = true <-> t <= 0.
Proof.
  unfold did_flag, total_seconds_le_0.
  destruct (Z.leb_spec t 0); split; intros; (lia || congruence).
Qed.

Lemma did_flag_false (t : timedelta) : did_flag t = false <-> 0 < t.
Proof.
  unfold did_flag, total_seconds_le_0.
  destruct (Z.leb_spec t 0); split; intros; (lia || congruence).
Qed.

Section WhiteToMove.

Variables (c : ChessClock) (mt : datetime) (tl b w : timedelta).
Hypothesis Hover : game_over_event c = false.
Hypothesis Hmt : move_time c = Assigned (Some mt).
Hypothesis Htl : time_left_at_move c = Some tl.
Hypothesis Hb : displayed_btime c = Some b.
Hypothesis Hw : displayed_wtime c = Some w.
Hypothesis Hturn : white_to_move c = true.

(** X3.  With white to move, a pass flags exactly from the instant
    [move_time + time_left_at_move] on.  From then on it writes the single
    byte of WHITE_WON, sets the game-over event and leaves both stored
    times as they were; before it, it stores what is left until that
    instant as white's time, leaves black's, and the game goes on. *)
Theorem white_pass_flags_from_the_deadline (now : datetime) :
  (after mt tl <= now ->
   exists c',
     time_keeper_body now c = Raises (NicLinkGameOver "white flaged") c'
     /\ written (time_keeper_body now) c = [Wire.WHITE_WON]
     /\ game_over_event c' = true
     /\ displayed_wtime c' = Some w
     /\ displayed_btime c' = Some b)
  /\ (now < after mt tl ->
      exists c',
        time_keeper_body now c = Returns Continue c'
        /\ displayed_wtime c' = Some (since (after mt tl) now)
        /\ displayed_btime c' = Some b
        /\ game_over_event c' = false).
Proof.
  pose proof (time_keeper_body_white now c mt tl b w Hover Hmt Htl Hb Hw Hturn) as E.
  unfold after, since in *. split; intros Hnow.
  - assert (F : did_flag (tl - (now - mt)) = true) by (apply did_flag_spec; lia).
    rewrite F in E. eexists. split; [exact E|].
    split; [apply written_eq; now rewrite E|].
    cbn. auto.
  - assert (F : did_flag (tl - (now - mt)) = false) by (apply did_flag_false; lia).
    rewrite F in E. eexists. split; [exact E|].
    cbn. repeat split; [f_equal; lia | exact Hover].
Qed.

End WhiteToMove.

Lemma white_pass_flags_from_the_deadline_witness :
  let c := state_of (move_made (after t0 (seconds 10)) (seeded 90000 60000)) in
  exists c',
    time_keeper_body (after t0 (seconds 70)) c
    = Raises (NicLinkGameOver "white flaged") c'
    /\ written (time_keeper_body (after t0 (seconds 70))) c = [Wire.WHITE_WON].
Proof.
  cbv zeta.
  destruct (white_pass_flags_from_the_deadline
              (state_of (move_made (after t0 (seconds 10)) (seeded 90000 60000)))
              (after t0 (seconds 10)) (seconds 60) (seconds 60) (seconds 90)
              eq_refl eq_refl eq_refl eq_refl eq_refl eq_refl
              (after t0 (seconds 70))) as [Hflag _].
  destruct Hflag as (c' & E & Hw & _); [vm_compute; discriminate|].
  exists c'. split; assumption.
Defined.

Section WhiteRun.

Variables (mt : datetime) (tl b : timedelta).

(** X4.  With white to move, passes of the timer do not add up their
    errors: after any run of passes before the deadline, in whatever
    order their instants come, white's stored time is what is left from
    the last instant to the deadline, and black's stored time is what it
    was. *)
Theorem white_run_does_not_drift
    (nows : list datetime) (last : datetime) (w : timedelta) (c : ChessClock) :
  game_over_event c = false ->
  move_time c = Assigned (Some mt) ->
  time_left_at_move c = Some tl ->
  displayed_btime c = Some b ->
  displayed_wtime c = Some w ->
  white_to_move c = true ->
  Forall (fun now => now < after mt tl) (nows ++ [last])%list ->
  exists c',
    time_keeper (nows ++ [last])%list c = Returns Continue c'
    /\ displayed_wtime c' = Some (since (after mt tl) last)
    /\ displayed_btime c' = Some b
    /\ game_over_event c' = false.
Proof.
  revert w c. induction nows as [|now rest IH];
    intros w c Hover Hmt Htl Hb Hw Hturn Hall;
    cbn [app] in Hall; apply Forall_cons_iff in Hall as [Hnow Hall];
    cbn [app time_keeper]; unfold bind;
    rewrite (time_keeper_body_white _ c mt tl b w Hover Hmt Htl Hb Hw Hturn).
  - assert (F : did_flag (tl - since last mt) = false)
      by (apply did_flag_false; unfold after, since in *; lia).
    rewrite F. eexists. split; [reflexivity|]. cbn.
    repeat split; [f_equal; unfold after, since; lia | exact Hover].
  - assert (F : did_flag (tl - since now mt) = false)
      by (apply did_flag_false; unfold after, since in *; lia).
    rewrite F. apply (IH (tl - since now mt)); auto.
Qed.

End WhiteRun.

Lemma white_run_does_not_drift_witness :
  let c := state_of (move_made (after t0 (seconds 10)) (seeded 90000 60000)) in
  exists c',
    time_keeper [after t0 (seconds 30); after t0 (seconds 20); after t0 (seconds 25)] c
    = Returns Continue c'
    /\ displayed_wtime c' = Some (seconds 45)
    /\ displayed_btime c' = Some (seconds 60).
Proof.
  cbv zeta.
  destruct (white_run_does_not_drift (after t0 (seconds 10)) (seconds 60) (seconds 60)
              [after t0 (seconds 30); after t0 (seconds 20)] (after t0 (seconds 25))
              (seconds 90)
              (state_of (move_made (after t0 (seconds 10)) (seeded 90000 60000)))
              eq_refl eq_refl eq_refl eq_refl eq_refl eq_refl)
    as (c' & E & Hw & Hb & _).
  { repeat constructor; vm_compute; reflexivity. }
  exists c'. repeat split; assumption.
Defined.

(** ** The bytes of the timer *)

(** The four ways in which a pass ends. *)
Lemma time_keeper_body_cases (now : datetime) (c : ChessClock) :
  time_keeper_body now c = Returns Continue c
  \/ (exists e, time_keeper_body now c = Raises e c)
  \/ (exists e code,
        (code = Wire.WHITE_WON \/ code = Wire.BLACK_WON)
        /\ time_keeper_body now c
           = Raises e (set_game_over_event true
                         (set_chess_clock (chess_clock c ++ [code])%list c)))
  \/ (exists x y, time_keeper_body now c = Returns Continue (shown x y c)).
Proof.
  destruct (game_over_event c) eqn:Hover.
  { right; left. eexists. now apply time_keeper_body_game_over. }
  destruct (move_time c) as [|mt] eqn:Hmt.
  { right; left. eexists. now apply time_keeper_body_unassigned. }
  destruct mt as [mt|];
    [|left; apply (time_keeper_body_idle now c None); auto].
  destruct (time_left_at_move c) as [tl|] eqn:Htl;
    [|left; apply (time_keeper_body_idle now c (Some mt)); auto].
  destruct (displayed_btime c) as [b|] eqn:Hb;
    [|left; apply (time_keeper_body_idle now c (Some mt)); auto].
  destruct (displayed_wtime c) as [w|] eqn:Hw;
    [|left; apply (time_keeper_body_idle now c (Some mt)); auto 6].
  right; right.
  destruct (white_to_move c) eqn:Hturn.
  - rewrite (time_keeper_body_white now c mt tl b w) by assumption.
    destruct (did_flag _); [left | right]; eauto.
  - rewrite (time_keeper_body_black now c mt tl b w) by assumption.
    destruct (did_flag _); [left | right]; eauto.
Qed.

Lemma length_frame_bytes (width : Z) (x y : timedelta) :
  0 <= width ->
  List.length (list_byte_of_string (frame_of width x y))
  = (2 * Z.to_nat width)%nat.
Proof.
  intros Hw. rewrite length_list_byte_of_string. unfold frame_of.
  rewrite length_append, !lcd_line_spec, !length_spec_line by assumption. lia.
Qed.

(** X5.  On a clock whose width is not negative, whatever a run of the
    timer writes can be read back by the firmware: a sequence of frames,
    each the code '3' and twice the width of bytes, followed by at most
    one code of a win, '6' or '7', after which the run has written
    nothing. *)
Theorem time_keeper_output_is_framed (nows : list datetime) (c : ChessClock) :
  0 <= lcd_length c ->
  timer_output (2 * Z.to_nat (lcd_length c)) (written (time_keeper nows) c).
Proof.
  revert c. induction nows as [|now rest IH]; intros c Hw; cbn [time_keeper].
  { rewrite (port_fixed_written _ c (port_fixed_ret Continue)). constructor. }
  rewrite written_bind;
    [| apply port_extends_time_keeper_body
     | intros [|]; [apply port_extends_time_keeper | apply port_extends_ret]].
  destruct (time_keeper_body_cases now c)
    as [E|[[e E]|[(e & code & Hcode & E)|(x & y & E)]]].
  - rewrite (written_eq (time_keeper_body now) c []), E;
      [now apply IH | now rewrite E, app_nil_r].
  - rewrite (written_eq (time_keeper_body now) c []), E;
      [constructor | now rewrite E, app_nil_r].
  - rewrite (written_eq (time_keeper_body now) c [code]), E;
      [|now rewrite E].
    destruct Hcode as [-> | ->]; constructor.
  - rewrite (written_eq (time_keeper_body now) c
               (Wire.SHOW_TEXT
                  :: list_byte_of_string (frame_of (lcd_length c) x y))), E;
      [|now rewrite E].
    cbn [app]. constructor; [now apply length_frame_bytes|].
    apply (IH (shown x y c)). exact Hw.
Qed.

Lemma time_keeper_output_is_framed_witness :
  0 <= lcd_length (seeded 2000 60000)
  /\ timer_output 32
       (written (time_keeper [after t0 (seconds 1); after t0 (seconds 3);
                              after t0 (seconds 4)])
          (seeded 2000 60000)).
Proof.
  split; [vm_compute; discriminate|].
  apply (time_keeper_output_is_framed
           [after t0 (seconds 1); after t0 (seconds 3); after t0 (seconds 4)]
           (seeded 2000 60000)).
  vm_compute; discriminate.
Defined.

(** ** A game from its stream *)

Section Stream.

Variables (w b : timedelta).



End Stream.


Lemma initialize_clock_without_state
    (ev : game_event) (now : datetime) (c : ChessClock) :
  ev_state ev = None ->
  countdown c <> Some true ->
  initialize_clock ev now c
  = Raises (KeyError "state")
      (set_white_to_move true (set_move_time (Assigned None) c)).
Proof.
  intros Hst Halive. rewrite (initialize_clock_unfold ev now c Halive).
  unfold bind at 1, initialize_clock_reset, bind, modify. now rewrite Hst.
Qed.

(** X8.  A stream whose first event has no "state" makes
    [start_new_game] raise [KeyError]: NEW_GAME has gone out, white is to
    move and the instant of the move is [None], but the stored times, the
    time left at the move and the thread are what they were, and the
    rest of the stream is not read. *)
Theorem start_new_game_without_state
    (ev : game_event) (now : datetime)
    (rest : list (game_event * datetime)) (c : ChessClock) :
  ev_state ev = None ->
  countdown c <> Some true ->
  exists c',
    start_new_game ((ev, now) :: rest) c = Raises (KeyError "state") c'
    /\ chess_clock c' = (chess_clock c ++ [Wire.NEW_GAME])%list
    /\ white_to_move c' = true
    /\ move_time c' = Assigned None
    /\ displayed_wtime c' = displayed_wtime c
    /\ displayed_btime c' = displayed_btime c
    /\ time_left_at_move c' = time_left_at_move c
    /\ countdown c' = countdown c.
Proof.
  intros Hst Halive.
  unfold start_new_game, bind at 1 2, write, modify. cbn [stream_events].
  unfold bind at 1.
  rewrite (initialize_clock_without_state ev now _ Hst) by exact Halive.
  eexists. split; [reflexivity|]. repeat split.
Qed.

Lemma start_new_game_without_state_witness :
  exists c',
    start_new_game [({| ev_type := "gameState"; ev_state := None |}, t0);
                    (game_full 90000 60000, after t0 (seconds 1))] new_clock
    = Raises (KeyError "state") c'
    /\ displayed_wtime c' = None
    /\ countdown c' = None.
Proof.
  destruct (start_new_game_without_state
              {| ev_type := "gameState"; ev_state := None |} t0
              [(game_full 90000 60000, after t0 (seconds 1))] new_clock eq_refl)
    as (c' & E & _ & _ & _ & Hw & _ & _ & Hcd).
  { discriminate. }
  exists c'. repeat split; assumption.
Defined.



(** ** Messages that are not ASCII *)

Lemma encode_ascii_refuses (s : string) :
  encode_ascii s = None <-> Exists non_ascii (list_ascii_of_string s).
Proof.
  unfold non_ascii. induction s as [|a s IH]; cbn [encode_ascii list_ascii_of_string].
  - split; [discriminate | intros H; inversion H].
  - destruct (Nat.ltb_spec (nat_of_ascii a) 128) as [Hlt|Hge].
    + destruct (encode_ascii s) as [bs|]; cbn [option_map]; split.
      * discriminate.
      * intros H. apply Exists_cons in H as [H|H]; [lia|].
        now apply IH in H.
      * intros _. apply Exists_cons_tl. now apply IH.
      * reflexivity.
    + split; [intros _; now apply Exists_cons_hd | reflexivity].
Qed.

(** X10.  [send_string] with a message that holds a character above 127
    raises [UnicodeEncodeError] when the code byte of SHOW_TEXT has
    already gone out: the port is left with a '3' that no text follows,
    and nothing else of the clock has changed. *)
Theorem send_string_leaves_a_code_without_text
    (message : string) (c : ChessClock) :
  Exists non_ascii (list_ascii_of_string message) ->
  send_string message c
  = Raises UnicodeEncodeError
      (set_chess_clock (chess_clock c ++ [Wire.SHOW_TEXT])%list c)
  /\ written (send_string message) c = [Wire.SHOW_TEXT].
Proof.
  intros H. apply encode_ascii_refuses in H.
  assert (E : send_string message c
              = Raises UnicodeEncodeError
                  (set_chess_clock (chess_clock c ++ [Wire.SHOW_TEXT])%list c)).
  { unfold send_string, bind, write, modify. now rewrite H. }
  split; [exact E|]. apply written_eq. now rewrite E.
Qed.

Lemma send_string_leaves_a_code_without_text_witness :
  written (send_string (String (ascii_of_nat 233) "chec")) new_clock
  = [Wire.SHOW_TEXT].
Proof.
  apply (send_string_leaves_a_code_without_text
           (String (ascii_of_nat 233) "chec") new_clock).
  apply Exists_cons_hd. unfold non_ascii. vm_compute. lia.
Defined.

(** ** The start of a game *)

Section HandleGameStart.

Variable stream_game_state : string -> list (game_event * datetime).

(** X11.  A game of speed "correspondence" is passed over: the clock is
    left exactly as it was and nothing is written.  A game of any other
    speed is started, with NEW_GAME as the only byte the call itself
    writes, and whether the game has moves already makes no difference. *)
Theorem handle_game_start_skips_correspondence
    (event : incoming_event) (game : game_data)
    (speed game_id : string) (c : ChessClock) :
  in_game event = Some game ->
  gd_speed game = Some speed ->
  gd_id game = Some game_id ->
  (speed = "correspondence" ->
   handle_game_start stream_game_state event c = Returns tt c)
  /\ (speed <> "correspondence" ->
      forall moved, gd_hasMoved game = Some moved ->
        handle_game_start stream_game_state event c
        = start_new_game (stream_game_state game_id) c
        /\ written (handle_game_start stream_game_state event) c
           = [Wire.NEW_GAME]).
Proof.
  intros Hgame Hspeed Hid. unfold handle_game_start.
  rewrite Hgame, Hspeed, Hid. split.
  - intros ->. reflexivity.
  - intros Hne moved Hmoved. apply String.eqb_neq in Hne.
    rewrite Hne, Hmoved. split; [reflexivity|].
    apply written_start_new_game.
Qed.

End HandleGameStart.

Lemma handle_game_start_skips_correspondence_witness :
  let game := {| gd_speed := Some "correspondence"; gd_id := Some "abcd";
                 gd_hasMoved := Some true |} in
  handle_game_start (fun _ => [(game_full 90000 60000, t0)])
    {| in_type := "gameStart"; in_game := Some game |} new_clock
  = Returns tt new_clock.
Proof.
  cbv zeta.
  apply (handle_game_start_skips_correspondence
           (fun _ => [(game_full 90000 60000, t0)])
           {| in_type := "gameStart";
              in_game := Some {| gd_speed := Some "correspondence";
                                 gd_id := Some "abcd";
                                 gd_hasMoved := Some true |} |}
           {| gd_speed := Some "correspondence"; gd_id := Some "abcd";
              gd_hasMoved := Some true |}
           "correspondence" "abcd" new_clock eq_refl eq_refl eq_refl).
  reflexivity.
Defined.

(** ** The end of a game *)

(** X12.  [game_over] and the three commands of a result set the
    game-over event and change nothing else of the clock but the port,
    although [game_over] calls [create_timestamp]: the stored times, the
    side to move and the values of the last move are as before. *)
Theorem game_over_changes_the_event_only
    (display_message : bool) (c : ChessClock) :
  let ended port := set_game_over_event true (set_chess_clock port c) in
  game_over display_message c
  = Returns tt
      (ended (chess_clock c
              ++ if display_message then [Wire.GAME_OVER] else [])%list)
  /\ white_won c = Returns tt (ended (chess_clock c ++ [Wire.WHITE_WON])%list)
  /\ black_won c = Returns tt (ended (chess_clock c ++ [Wire.BLACK_WON])%list)
  /\ drawn_game c = Returns tt (ended (chess_clock c ++ [Wire.DRAWN])%list).
Proof.
  cbv zeta. split; [|repeat split; apply won_returns].
  rewrite game_over_returns.
  destruct display_message; [reflexivity|].
  rewrite app_nil_r. now destruct c.
Qed.

(** ** The displayed times stay *)

Section DisplayedStay.

Ltac shown_both_done :=
  intros ? Hc; first [exact Hc | split; discriminate | idtac];
  cbn; destruct Hc; split; first [assumption | discriminate].

Lemma shown_both_body now : preserves both_shown (time_keeper_body now).
Proof. preserves_methods; shown_both_done. Qed.

Lemma shown_both_time_keeper nows : preserves both_shown (time_keeper nows).
Proof.
  induction nows as [|now rest IH]; cbn [time_keeper].
  - apply preserves_ret.
  - apply preserves_bind; [apply shown_both_body|].
    intros [|]; [exact IH | apply preserves_ret].
Qed.

Lemma shown_both_initialize_clock ev now :
  preserves both_shown (initialize_clock ev now).
Proof. preserves_methods; shown_both_done. Qed.

Lemma shown_both_stream_events b stream :
  preserves both_shown (stream_events b stream).
Proof.
  revert b. induction stream as [|[ev now] rest IH]; intros b; cbn [stream_events].
  - apply preserves_ret.
  - pose proof (shown_both_initialize_clock ev now).
    preserves_methods; shown_both_done.
Qed.

(** X13.  Once both displayed times are stored, no call of any method
    leaves either of them unset, whether it returns or raises; the guards
    of the timer on these two values can only hold before the first
    game. *)
Theorem displayed_times_stay_set (m : method) (c : ChessClock) :
  displayed_wtime c <> None /\ displayed_btime c <> None ->
  displayed_wtime (state_of (call m c)) <> None
  /\ displayed_btime (state_of (call m c)) <> None.
Proof.
  revert c. change (preserves both_shown (call m)).
  destruct m; cbn [call];
    try (pose proof (shown_both_stream_events true stream));
    try (pose proof (shown_both_time_keeper nows));
    preserves_methods; shown_both_done.
Qed.

Lemma displayed_times_stay_set_witness :
  displayed_wtime
    (state_of (call (m_initialize_clock
                       {| ev_type := "gameState"; ev_state := None |} t0)
                 game_ended)) <> None.
Proof.
  apply (displayed_times_stay_set
           (m_initialize_clock {| ev_type := "gameState"; ev_state := None |} t0)
           game_ended).
  split; discriminate.
Defined.

End DisplayedStay.

(** ** What a line shows of a time *)

Section Lines.

Lemma length_zeros (n : nat) :
  String.length (string_of_list_ascii (repeat "0"%char n)) = n.
Proof. induction n; simpl; congruence. Qed.

Lemma length_fmt_d_pos (n : Z) : (1 <= String.length (fmt_d n))%nat.
Proof.
  unfold fmt_d, NilZero.string_of_int, NilZero.string_of_uint.
  destruct (Z.to_int n) as [d|d]; destruct d; cbn; lia.
Qed.

Lemma length_fmt_0d_min (w : nat) (n : Z) :
  (w <= String.length (fmt_0d w n))%nat.
Proof. unfold fmt_0d. rewrite length_append, length_zeros. lia. Qed.

(** Below sixty, two digits. *)
Lemma length_fmt_0d_2 (n : Z) :
  0 <= n < 60 -> String.length (fmt_0d 2 n) = 2%nat.
Proof.
  intros Hn.
  assert (F : forallb (fun k => Nat.eqb (String.length (fmt_0d 2 k)) 2)
                (map Z.of_nat (seq 0 60)) = true) by (vm_compute; reflexivity).
  rewrite forallb_forall in F. apply Nat.eqb_eq, F.
  apply in_map_iff. exists (Z.to_nat n). split; [lia | apply in_seq; lia].
Qed.

(** Below twenty-four, one digit or two. *)
Lemma length_fmt_d_hours (n : Z) :
  0 <= n < 24 -> (String.length (fmt_d n) <= 2)%nat.
Proof.
  intros Hn.
  assert (F : forallb (fun k => Nat.leb (String.length (fmt_d k)) 2)
                (map Z.of_nat (seq 0 24)) = true) by (vm_compute; reflexivity).
  rewrite forallb_forall in F. apply Nat.leb_le, F.
  apply in_map_iff. exists (Z.to_nat n). split; [lia | apply in_seq; lia].
Qed.

(** The text of a whole number of seconds below a day. *)
Lemma str_whole_seconds (t : timedelta) :
  0 <= t < seconds 86400 -> td_microseconds t = 0 ->
  str t = fmt_d (td_seconds t / 60 / 60) ++ ":"
          ++ fmt_0d 2 ((td_seconds t / 60) mod 60) ++ ":"
          ++ fmt_0d 2 (td_seconds t mod 60)
  /\ (7 <= String.length (str t) <= 8)%nat.
Proof.
  intros Ht Hus. unfold seconds in Ht.
  assert (Hd : td_days t = 0) by (unfold td_days; apply Z.div_small; lia).
  assert (Hs : 0 <= td_seconds t < 86400).
  { unfold td_seconds. rewrite Z.mod_small by lia.
    split; [apply Z.div_pos; lia | apply Z.div_lt_upper_bound; lia]. }
  assert (E : str t = fmt_d (td_seconds t / 60 / 60) ++ ":"
                      ++ fmt_0d 2 ((td_seconds t / 60) mod 60) ++ ":"
                      ++ fmt_0d 2 (td_seconds t mod 60)).
  { unfold str. now rewrite Hd, Hus. }
  split; [exact E|]. rewrite E, !length_append.
  rewrite !length_fmt_0d_2 by (apply Z.mod_pos_bound; lia).
  pose proof (length_fmt_d_pos (td_seconds t / 60 / 60)).
  assert (String.length (fmt_d (td_seconds t / 60 / 60)) <= 2)%nat.
  { apply length_fmt_d_hours. split.
    - apply Z.div_pos; [apply Z.div_pos|]; lia.
    - apply Z.div_lt_upper_bound; [lia|]. apply Z.div_lt_upper_bound; lia. }
  cbn [String.length]. lia.
Qed.

(** The text of a time with a fraction of a second has at least fourteen
    characters. *)
Lemma length_str_fraction (t : timedelta) :
  td_microseconds t <> 0 -> (14 <= String.length (str t))%nat.
Proof.
  intros Hus. unfold str. apply Z.eqb_neq in Hus. rewrite Hus.
  pose proof (length_fmt_d_pos (td_seconds t / 60 / 60)).
  pose proof (length_fmt_0d_min 2 ((td_seconds t / 60) mod 60)).
  pose proof (length_fmt_0d_min 2 (td_seconds t mod 60)).
  pose proof (length_fmt_0d_min 6 (td_microseconds t)).
  destruct (td_days t =? 0); rewrite !length_append; cbn [String.length]; lia.
Qed.

Variable label : string.
Hypothesis Hlabel : String.length label = 3%nat.

(** X14.  A whole number of seconds from zero to below a day is shown in
    full on the sixteen characters of a line: the label, the time as
    "H:MM:SS" with one or two digits for the hours, and spaces; nothing
    of it is cut. *)
Theorem whole_seconds_are_shown_in_full (t : timedelta) :
  0 <= t < seconds 86400 ->
  td_microseconds t = 0 ->
  lcd_line 16 (label ++ str t)
  = label ++ str t ++ spaces (13 - String.length (str t))
  /\ (7 <= String.length (str t) <= 8)%nat.
Proof.
  intros Ht Hus. destruct (str_whole_seconds t Ht Hus) as [_ Hlen].
  split; [|exact Hlen].
  rewrite lcd_line_spec by lia. unfold spec_line.
  rewrite length_append, Hlabel.
  destruct (Nat.ltb_spec (Z.to_nat 16) (3 + String.length (str t))); [lia|].
  replace (Z.to_nat 16 - (3 + String.length (str t)))%nat
    with (13 - String.length (str t))%nat by lia.
  generalize (spaces (13 - String.length (str t))). intros tail.
  clear. induction label; cbn; congruence.
Qed.

(** X15.  A time with a fraction of a second never fits: its text has at
    least fourteen characters, so that with the label the line is the
    first sixteen characters of at least seventeen, and the end of the
    fraction is not shown. *)
Theorem fractions_are_cut (t : timedelta) :
  td_microseconds t <> 0 ->
  (17 <= String.length (label ++ str t))%nat
  /\ lcd_line 16 (label ++ str t) = substring 0 16 (label ++ str t).
Proof.
  intros Hus. pose proof (length_str_fraction t Hus) as Hlen.
  assert (H17 : (17 <= String.length (label ++ str t))%nat)
    by (rewrite length_append, Hlabel; lia).
  split; [exact H17|].
  rewrite lcd_line_spec by lia. unfold spec_line.
  destruct (Nat.ltb_spec (Z.to_nat 16) (String.length (label ++ str t)));
    [reflexivity | lia].
Qed.

End Lines.

Lemma whole_seconds_are_shown_in_full_witness :
  lcd_line 16 ("W: " ++ str (minutes 5)) = "W: 0:05:00      ".
Proof.
  rewrite (proj1 (whole_seconds_are_shown_in_full "W: " eq_refl (minutes 5)
                    ltac:(vm_compute; split; [discriminate | reflexivity])
                    eq_refl)).
  vm_compute. reflexivity.
Defined.

Lemma fractions_are_cut_witness :
  lcd_line 16 ("B: " ++ str (microseconds 299500001))
  = substring 0 16 "B: 0:04:59.500001".
Proof.
  rewrite (proj2 (fractions_are_cut "B: " eq_refl (microseconds 299500001)
                    ltac:(vm_compute; discriminate))).
  vm_compute. reflexivity.
Defined.

(** ** A move and the pass after it *)

Section MoveThenPass.

Variables (c : ChessClock) (w b : timedelta) (moved now : datetime).
Hypothesis Hover : game_over_event c = false.
Hypothesis Hw : displayed_wtime c = Some w.
Hypothesis Hb : displayed_btime c = Some b.

(** X16.  [move_made] keeps the stored time of the side that was to move
    as the time left at the move, and the pass after it counts that time
    down for the side that is to move now.  After a move of white, a pass
    that finds black's stored time positive stores white's time less the
    time since the move as black's, and black's as white's.  After a move
    of black, a pass before black's time is used up stores black's time
    less the time since the move as white's. *)
Theorem the_movers_time_runs_on :
  (white_to_move c = true -> 0 < b ->
   exists c',
     (move_made moved ;; time_keeper_body now) c = Returns Continue c'
     /\ white_to_move c' = false
     /\ displayed_btime c' = Some (w - since now moved)
     /\ displayed_wtime c' = Some b)
  /\ (white_to_move c = false -> now < after moved b ->
      exists c',
        (move_made moved ;; time_keeper_body now) c = Returns Continue c'
        /\ white_to_move c' = true
        /\ displayed_wtime c' = Some (b - since now moved)
        /\ displayed_btime c' = Some b).
Proof.
  split; intros Hturn Hleft; unfold bind; rewrite move_made_returns, Hturn.
  - rewrite (time_keeper_body_black now _ moved w b w); try reflexivity;
      try assumption.
    apply did_flag_false in Hleft. rewrite Hleft.
    eexists. split; [reflexivity|]. repeat split.
  - rewrite (time_keeper_body_white now _ moved b b w); try reflexivity;
      try assumption.
    assert (F : did_flag (b - since now moved) = false)
      by (apply did_flag_false; unfold after, since in *; lia).
    rewrite F. eexists. split; [reflexivity|]. repeat split.
Qed.

End MoveThenPass.

Lemma the_movers_time_runs_on_witness :
  let c := seeded 90000 60000 in
  exists c',
    (move_made (after t0 (seconds 10)) ;;
     time_keeper_body (after t0 (seconds 15))) c = Returns Continue c'
    /\ displayed_wtime c' = Some (seconds 55)
    /\ displayed_btime c' = Some (seconds 60).
Proof.
  cbv zeta.
  destruct (the_movers_time_runs_on (seeded 90000 60000) (seconds 90) (seconds 60)
              (after t0 (seconds 10)) (after t0 (seconds 15))
              eq_refl eq_refl eq_refl) as [_ H].
  destruct H as (c' & E & _ & Hw & Hb); [reflexivity | reflexivity |].
  exists c'. repeat split; assumption.
Defined.

(** ** The frame on the clocks the program has *)

(** X17.  No method changes the width the constructor sets, so on every
    clock the program can reach, [updateLCD] with any two durations
    returns, having written exactly thirty-three bytes: the code '3' and
    a frame of thirty-two. *)
Theorem every_update_writes_33_bytes
    (wtime btime : timedelta) (c : ChessClock) :
  reachable c ->
  lcd_length c = 16
  /\ exists c' frame,
       updateLCD wtime btime c = Returns tt c'
       /\ written (updateLCD wtime btime) c = Wire.SHOW_TEXT :: frame
       /\ List.length frame = 32%nat
       /\ reachable c'.
Proof.
  intros Hc. pose proof (reachable_lcd_length c Hc) as HL.
  split; [exact HL|]. do 2 eexists.
  split; [apply updateLCD_returns|].
  split; [apply written_updateLCD|].
  split.
  - rewrite length_frame_bytes by lia. now rewrite HL.
  - pose proof (reach_call (m_updateLCD wtime btime) c Hc) as H.
    cbn [call] in H. now rewrite updateLCD_returns in H.
Qed.

Lemma every_update_writes_33_bytes_witness :
  reachable (seeded 2000 60000)
  /\ exists frame,
       written (updateLCD (seconds 2) (seconds 60)) (seeded 2000 60000)
       = Wire.SHOW_TEXT :: frame
       /\ List.length frame = 32%nat.
Proof.
  assert (H : reachable (seeded 2000 60000)).
  { exact (reach_call (m_initialize_clock (game_full 2000 60000) t0) new_clock
             (reach_init new_clock eq_refl)). }
  split; [exact H|].
  destruct (every_update_writes_33_bytes (seconds 2) (seconds 60)
              (seeded 2000 60000) H) as (_ & c' & frame & _ & Hw & Hlen & _).
  exists frame. split; assumption.
Defined.

(** ** A game with its timer running *)

(** With passes left out, the schedule is the loop of [start_new_game]. *)
Lemma run_schedule_of_events (b : bool) (stream : list (game_event * datetime))
    (c : ChessClock) :
  run_schedule b (map (fun e => Event (fst e) (snd e)) stream) c
  = stream_events b stream c.
Proof.
  revert b c. induction stream as [|[ev now] rest IH]; intros b c; [reflexivity|].
  cbn [map fst snd run_schedule stream_events]. unfold bind.
  destruct (if b then initialize_clock ev now else ret tt) as [[] c1|e c1];
    [|reflexivity].
  destruct ((if String.eqb (ev_type ev) "gameState"
             then (modify (set_move_time (Assigned (Some now)));; move_made now)
             else ret tt) c1) as [[] c2|e c2] eqn:E;
    unfold bind in E; rewrite E; [apply IH | reflexivity].
Qed.

(** A pass that raises has found the game over or has set it so, once the
    instant of the move has been assigned. *)
Lemma time_keeper_body_raises_over (now : datetime) (mt : option datetime)
    (e : exn) (c c' : ChessClock) :
  move_time c = Assigned mt ->
  time_keeper_body now c = Raises e c' ->
  game_over_event c' = true.
Proof.
  intros Hmt.
  destruct (game_over_event c) eqn:Hover.
  { rewrite time_keeper_body_game_over by assumption. now intros [= _ <-]. }
  destruct mt as [mt|];
    [|rewrite (time_keeper_body_idle now c None); auto; discriminate].
  destruct (time_left_at_move c) as [tl|] eqn:Htl;
    [|rewrite (time_keeper_body_idle now c (Some mt)); auto; discriminate].
  destruct (displayed_btime c) as [b|] eqn:Hb;
    [|rewrite (time_keeper_body_idle now c (Some mt)); auto; discriminate].
  destruct (displayed_wtime c) as [w|] eqn:Hw;
    [|rewrite (time_keeper_body_idle now c (Some mt)); auto 6; discriminate].
  destruct (white_to_move c) eqn:Hturn.
  - rewrite (time_keeper_body_white now c mt tl b w) by assumption.
    destruct (did_flag _); [|discriminate]. now intros [= _ <-].
  - rewrite (time_keeper_body_black now c mt tl b w) by assumption.
    destruct (did_flag _); [|discriminate]. now intros [= _ <-].
Qed.

Section Running.

Variables (wm : bool) (d : datetime).

(** A pass of the timer thread leaves the game running as it was. *)
Lemma timer_thread_pass_running (now : datetime) (c : ChessClock) :
  game_running wm d c ->
  exists c', timer_thread_pass now c = Returns tt c' /\ game_running wm d c'.
Proof.
  intros (Hwm & Hmt & Hshown & Hlive). unfold timer_thread_pass.
  destruct Hlive as [Hcd | [Hcd Hover]]; rewrite Hcd;
    [|exists c; split; [reflexivity|];
      exact (conj Hwm (conj Hmt (conj Hshown (or_intror (conj Hcd Hover)))))].
  pose proof (kept_body (lcd_length c) (countdown c) (white_to_move c)
                (time_left_at_move c) (move_time c) now c) as Hkept.
  pose proof (shown_both_body now c Hshown) as Hshown'.
  pose proof (time_keeper_body_raises_over now (Some d)) as Hraise.
  destruct Hkept as (_ & Hcd' & Hwm' & _ & Hmt'); [repeat split|].
  destruct (time_keeper_body now c) as [k c'|e c'] eqn:E; cbn [state_of] in *;
    eexists; (split; [reflexivity|]); unfold game_running.
  - split; [congruence|]. split; [congruence|]. split; [exact Hshown'|].
    left. congruence.
  - cbn. split; [congruence|]. split; [congruence|]. split; [exact Hshown'|].
    right. split; [reflexivity|]. exact (Hraise e c c' Hmt E).
Qed.

(** An event while the game runs: a move if its type is "gameState",
    nothing otherwise. *)
Lemma event_running (ev : game_event) (now : datetime) (c : ChessClock) :
  game_running wm d c ->
  let move := String.eqb (ev_type ev) "gameState" in
  exists c',
    stream_events false [(ev, now)] c = Returns tt c'
    /\ game_running (xorb wm move) (if move then now else d) c'.
Proof.
  intros (Hwm & Hmt & Hshown & Hlive). cbv zeta. cbn [stream_events].
  destruct (String.eqb (ev_type ev) "gameState");
    cbv beta iota delta [bind modify ret].
  - rewrite move_made_returns.
    eexists. split; [reflexivity|]. unfold game_running. cbn.
    rewrite Hwm, xorb_true_r. split; [reflexivity|]. split; [reflexivity|].
    split; [exact Hshown | exact Hlive].
  - exists c. split; [reflexivity|]. rewrite xorb_false_r.
    exact (conj Hwm (conj Hmt (conj Hshown Hlive))).
Qed.

End Running.

(** The rest of a schedule, once the game runs. *)
Lemma run_schedule_running (rest : list step) (wm : bool) (d : datetime)
    (c : ChessClock) :
  game_running wm d c ->
  exists c',
    run_schedule false rest c = Returns tt c'
    /\ game_running (xorb wm (Nat.odd (moves_of rest))) (last_move_of rest d) c'.
Proof.
  revert wm d c. induction rest as [|[ev now|now] rest IH]; intros wm d c Hc.
  - exists c. cbn. rewrite xorb_false_r. auto.
  - destruct (event_running wm d ev now c Hc) as (c1 & E1 & Hc1).
    cbv zeta in Hc1.
    destruct (IH _ _ c1 Hc1) as (c' & E & Hc').
    exists c'. cbn [run_schedule moves_of last_move_of]. unfold bind at 1.
    rewrite E1. split; [exact E|].
    destruct (String.eqb (ev_type ev) "gameState"); [|now rewrite xorb_false_r in Hc'].
    rewrite Nat.odd_succ, <- Nat.negb_odd.
    now replace (xorb wm (negb (Nat.odd (moves_of rest))))
      with (xorb (xorb wm true) (Nat.odd (moves_of rest)))
      by (destruct wm, (Nat.odd (moves_of rest)); reflexivity).
  - destruct (timer_thread_pass_running wm d now c Hc) as (c1 & E1 & Hc1).
    destruct (IH _ _ c1 Hc1) as (c' & E & Hc').
    exists c'. cbn [run_schedule moves_of last_move_of]. unfold bind at 1.
    rewrite E1. split; [exact E | exact Hc'].
Qed.

(** The whole of a game with its timer, from a first event that has the
    clocks, on a clock without a live timer. *)
Lemma start_new_game_with_timer_runs
    (ev : game_event) (st : clock_state) (now : datetime)
    (rest : list step) (c : ChessClock) :
  ev_state ev = Some st ->
  countdown c <> Some true ->
  exists c',
    start_new_game_with_timer (Event ev now :: rest) c = Returns tt c'
    /\ game_running (Nat.odd (moves_of (Event ev now :: rest)))
         (last_move_of rest now) c'.
Proof.
  intros Hst Halive.
  unfold start_new_game_with_timer. cbn [run_schedule stream_events moves_of].
  cbv beta iota delta [bind write modify ret].
  rewrite (initialize_clock_returns ev st now _ Hst) by exact Halive.
  destruct (String.eqb (ev_type ev) "gameState"); cbv beta iota.
  - rewrite move_made_returns. cbv beta iota.
    edestruct (run_schedule_running rest true now) as (c' & E & Hc');
      [|exists c'; split; [exact E|]].
    { unfold game_running, both_shown. cbn.
      repeat split; (discriminate || (left; reflexivity)). }
    rewrite Nat.odd_succ, <- Nat.negb_odd.
    now destruct (Nat.odd (moves_of rest)).
  - edestruct (run_schedule_running rest false now) as (c' & E & Hc');
      [|exists c'; split; [exact E|]].
    { unfold game_running, both_shown. cbn.
      repeat split; (discriminate || (left; reflexivity)). }
    exact Hc'.
Qed.

(** X6.  A game with its timer running, from a first event that carries
    clocks that [timedelta] can hold, on a clock without a live timer: however the passes of
    the timer fall between the events, [start_new_game] gets through the
    whole stream; at its end white is to move exactly when the stream
    held an odd number of events of type "gameState", the instant of the
    move is that of the last of them (of the start when there is none),
    and both times are stored.  Events of other types are passed over. *)
Theorem start_new_game_counts_the_moves
    (ev : game_event) (st : clock_state) (now : datetime)
    (rest : list step) (c : ChessClock) :
  ev_state ev = Some st ->
  snapshot_in_range st ->
  countdown c <> Some true ->
  exists c',
    start_new_game_with_timer (Event ev now :: rest) c = Returns tt c'
    /\ white_to_move c' = Nat.odd (moves_of (Event ev now :: rest))
    /\ move_time c' = Assigned (Some (last_move_of rest now))
    /\ displayed_wtime c' <> None
    /\ displayed_btime c' <> None
    /\ countdown c' <> None.
Proof.
  intros Hst _ Halive.
  destruct (start_new_game_with_timer_runs ev st now rest c Hst Halive)
    as (c' & E & Hwm & Hmt & [Hw Hb] & Hlive).
  exists c'. repeat split; try assumption.
  destruct Hlive as [H | [H _]]; rewrite H; discriminate.
Qed.

Lemma start_new_game_counts_the_moves_witness :
  let move t := Event {| ev_type := "gameState";
                         ev_state := Some {| wtime := 1; btime := 1 |} |}
                  (after t0 (seconds t)) in
  let chat t := Event {| ev_type := "chatLine"; ev_state := None |}
                  (after t0 (seconds t)) in
  let pass t := Pass (after t0 (seconds t)) in
  exists c',
    start_new_game_with_timer
      [Event (game_full 90000 60000) t0; pass 1; move 5; pass 6; chat 6;
       move 9; pass 10; move 12; pass 13] new_clock = Returns tt c'
    /\ white_to_move c' = true
    /\ move_time c' = Assigned (Some (after t0 (seconds 12))).
Proof.
  cbv zeta.
  destruct (start_new_game_counts_the_moves (game_full 90000 60000)
              {| wtime := 90000; btime := 60000 |} t0
              [Pass (after t0 (seconds 1));
               Event {| ev_type := "gameState";
                        ev_state := Some {| wtime := 1; btime := 1 |} |}
                 (after t0 (seconds 5));
               Pass (after t0 (seconds 6));
               Event {| ev_type := "chatLine"; ev_state := None |}
                 (after t0 (seconds 6));
               Event {| ev_type := "gameState";
                        ev_state := Some {| wtime := 1; btime := 1 |} |}
                 (after t0 (seconds 9));
               Pass (after t0 (seconds 10));
               Event {| ev_type := "gameState";
                        ev_state := Some {| wtime := 1; btime := 1 |} |}
                 (after t0 (seconds 12));
               Pass (after t0 (seconds 13))]
              new_clock eq_refl)
    as (c' & E & Hturn & Hmt & _).
  { split; split; vm_compute; discriminate. }
  { discriminate. }
  exists c'. split; [exact E|]. split; [exact Hturn | exact Hmt].
Defined.



(** The first pass of the timer, ten milliseconds after the start,
    already rewrites both stored times. *)
Example timer_rewrites_the_times_during_the_game :
  exists c',
    start_new_game_with_timer
      [Event (game_full 90000 60000) t0; Pass (after t0 (milliseconds 10))]
      new_clock = Returns tt c'
    /\ displayed_wtime c' = Some (seconds 60)
    /\ displayed_btime c' = Some (milliseconds 89990).
Proof. eexists. split; [vm_compute; reflexivity|]. split; reflexivity. Qed.
